(** * Wiki Explorer: the query controller of [index.jsx]

    A shallow embedding of the React component [App] of [src/index.jsx]:
    its state variables, the two asynchronous handlers [handleSearch] and
    [fetchArticleExtract], the handler [clearArticle], and the part of the
    rendered tree that decides which handler a user gesture can invoke.

    JavaScript values are embedded as an inductive type, strings as lists
    of UTF-16 code units, and the handlers as programs of a small
    state-and-exception monad over the component's state, the console and
    the list of issued requests.  An [async] handler is cut at its
    [await]: a starting part that runs synchronously, and a continuation
    that runs when the request settles. *)

From Stdlib Require Import List NArith ZArith Bool String Ascii Lia.
From Stdlib Require DecimalString.
Import ListNotations.

Set Implicit Arguments.
Set Warnings "-register-all".

(* ================================================================= *)
(** ** Strings *)

(** A JavaScript string is a sequence of 16-bit code units. *)
Definition jsstring := list N.

(** String literals of the source, which are all ASCII. *)
Definition lit (s : string) : jsstring :=
  map N_of_ascii (list_ascii_of_string s).

(** The double quote, as a string. *)
Definition dquote : jsstring := [34%N].

Definition jsstring_eqb (a b : jsstring) : bool :=
  if list_eq_dec N.eq_dec a b then true else false.

(** [x] occurs in [s] as a contiguous run of code units. *)
Definition contains (s x : jsstring) : Prop :=
  exists pre post, s = pre ++ x ++ post.

(** White space and line terminators, the code units [String.prototype.trim]
    strips. *)
Definition isWhiteSpace (c : N) : bool :=
  ((9 <=? c) && (c <=? 13) || (c =? 32) || (c =? 160) || (c =? 0x1680)
   || (0x2000 <=? c) && (c <=? 0x200A)
   || (c =? 0x2028) || (c =? 0x2029) || (c =? 0x202F) || (c =? 0x205F)
   || (c =? 0x3000) || (c =? 0xFEFF))%N.

Fixpoint trimStart (s : jsstring) : jsstring :=
  match s with
  | c :: s' => if isWhiteSpace c then trimStart s' else s
  | [] => []
  end.

Definition trimEnd (s : jsstring) : jsstring := rev (trimStart (rev s)).

Definition trim (s : jsstring) : jsstring := trimEnd (trimStart s).

(** *** [encodeURIComponent] *)

Definition isLeadSurrogate (c : N) : bool := ((0xD800 <=? c) && (c <=? 0xDBFF))%N.
Definition isTrailSurrogate (c : N) : bool := ((0xDC00 <=? c) && (c <=? 0xDFFF))%N.

(** The characters [encodeURIComponent] leaves alone: letters, digits and
    [- _ . ! ~ * ' ( )]. *)
Definition uriUnreserved (c : N) : bool :=
  ((65 <=? c) && (c <=? 90) || (97 <=? c) && (c <=? 122)
   || (48 <=? c) && (c <=? 57)
   || (c =? 45) || (c =? 95) || (c =? 46) || (c =? 33) || (c =? 126)
   || (c =? 42) || (c =? 39) || (c =? 40) || (c =? 41))%N.

Definition hexDigit (d : N) : N := (if d <? 10 then 48 + d else 55 + d)%N.

(** ["%XX"] for one octet, upper-case hexadecimal. *)
Definition percentOctet (b : N) : jsstring :=
  [37%N; hexDigit (N.shiftr b 4); hexDigit (N.land b 15)].

(** The UTF-8 octets of a code point. *)
Definition utf8 (cp : N) : list N :=
  (if cp <? 0x80 then [cp]
   else if cp <? 0x800 then
     [N.lor 0xC0 (N.shiftr cp 6); N.lor 0x80 (N.land cp 0x3F)]
   else if cp <? 0x10000 then
     [N.lor 0xE0 (N.shiftr cp 12);
      N.lor 0x80 (N.land (N.shiftr cp 6) 0x3F);
      N.lor 0x80 (N.land cp 0x3F)]
   else
     [N.lor 0xF0 (N.shiftr cp 18);
      N.lor 0x80 (N.land (N.shiftr cp 12) 0x3F);
      N.lor 0x80 (N.land (N.shiftr cp 6) 0x3F);
      N.lor 0x80 (N.land cp 0x3F)])%N.

Definition percentEncode (cp : N) : jsstring :=
  flat_map percentOctet (utf8 cp).

(** [None] stands for the [URIError] the builtin throws on an unpaired
    surrogate. *)
Fixpoint encodeURIComponent (s : jsstring) : option jsstring :=
  match s with
  | [] => Some []
  | c :: s' =>
    if uriUnreserved c then option_map (cons c) (encodeURIComponent s')
    else if isLeadSurrogate c then
      match s' with
      | d :: s'' =>
        if isTrailSurrogate d then
          let cp := ((c - 0xD800) * 0x400 + (d - 0xDC00) + 0x10000)%N in
          option_map (app (percentEncode cp)) (encodeURIComponent s'')
        else None
      | [] => None
      end
    else if isTrailSurrogate c then None
    else option_map (app (percentEncode c)) (encodeURIComponent s')
  end.

(** Conversion to a [USVString], as the [URLSearchParams] constructor does
    to every key and value: an unpaired surrogate becomes U+FFFD. *)
Fixpoint toUSVString (s : jsstring) : jsstring :=
  match s with
  | [] => []
  | c :: s' =>
    if isLeadSurrogate c then
      match s' with
      | d :: s'' =>
        if isTrailSurrogate d then c :: d :: toUSVString s''
        else 0xFFFD%N :: toUSVString s'
      | [] => [0xFFFD%N]
      end
    else if isTrailSurrogate c then 0xFFFD%N :: toUSVString s'
    else c :: toUSVString s'
  end.

(* ================================================================= *)
(** ** Values *)

(** The values the component handles: what [response.json()] can produce,
    [undefined], and the one builtin function a property read of the
    component can reach ([String.prototype.search]).  Numbers are the
    integers, standing for the integer-valued doubles. *)
Inductive value : Type :=
| VUndefined
| VNull
| VBool (b : bool)
| VNum (n : Z)
| VStr (s : jsstring)
| VArr (elems : list value)
| VObj (props : list (jsstring * value))
| VNative (name : jsstring) (arity : Z).

(** What a [throw] or a rejected promise carries. *)
Inductive exn : Type :=
| Error (message : jsstring)       (* [new Error(message)] *)
| TypeError                        (* raised by the language itself *)
| URIError                         (* raised by [encodeURIComponent] *)
| HostFailure (detail : jsstring). (* [fetch] or [response.json()] rejected *)

Inductive result (A : Type) : Type :=
| Ok (a : A)
| Throw (e : exn).
Arguments Ok {A} a.
Arguments Throw {A} e.

Definition truthy (v : value) : bool :=
  match v with
  | VUndefined | VNull => false
  | VBool b => b
  | VNum n => negb (n =? 0)%Z
  | VStr s => match s with [] => false | _ => true end
  | VArr _ | VObj _ | VNative _ _ => true
  end.

(** [v === n] for a number literal [n]. *)
Definition strictEqNum (v : value) (n : Z) : bool :=
  match v with VNum m => (m =? n)%Z | _ => false end.

(** The own property [k] of an object, which lists each of its keys
    once (for a repeated key [JSON.parse] keeps the last value only). *)
Definition lookup (k : jsstring) (props : list (jsstring * value)) : option value :=
  option_map snd (find (fun p => jsstring_eqb (fst p) k) props).

Definition isDigit (c : N) : bool := ((48 <=? c) && (c <=? 57))%N.

(** A property key that is a canonical array index. *)
Definition arrayIndex (k : jsstring) : option nat :=
  match k with
  | [] => None
  | c :: rest =>
    if forallb isDigit k && (negb (c =? 48)%N || match rest with [] => true | _ => false end)
    then Some (N.to_nat (fold_left (fun acc d => 10 * acc + (d - 48))%N k 0%N))
    else None
  end.

(** [v.k] and [v[k]].  Reading a property of [undefined] or [null] throws.
    Besides own properties, the only inherited property under one of the
    names the component reads (error, info, query, search, pages, 0,
    title, extract, length, pageid, snippet) is [search] on strings. *)
Definition getProp (v : value) (k : jsstring) : result value :=
  match v with
  | VUndefined | VNull => Throw TypeError
  | VBool _ | VNum _ => Ok VUndefined
  | VObj props => Ok (match lookup k props with Some x => x | None => VUndefined end)
  | VArr l =>
    if jsstring_eqb k (lit "length") then Ok (VNum (Z.of_nat (List.length l)))
    else match arrayIndex k with
         | Some i => Ok (nth i l VUndefined)
         | None => Ok VUndefined
         end
  | VStr s =>
    if jsstring_eqb k (lit "length") then Ok (VNum (Z.of_nat (List.length s)))
    else if jsstring_eqb k (lit "search") then Ok (VNative (lit "search") 1)
    else match arrayIndex k with
         | Some i => Ok (match nth_error s i with Some c => VStr [c] | None => VUndefined end)
         | None => Ok VUndefined
         end
  | VNative name arity =>
    if jsstring_eqb k (lit "length") then Ok (VNum arity)
    else if jsstring_eqb k (lit "name") then Ok (VStr name)
    else Ok VUndefined
  end.

(** [v?.k]: [undefined] when [v] is [undefined] or [null]. *)
Definition getPropOpt (v : value) (k : jsstring) : result value :=
  match v with
  | VUndefined | VNull => Ok VUndefined
  | _ => getProp v k
  end.

(** [a || b] *)
Definition orElse (a b : value) : value := if truthy a then a else b.

Definition decimal (n : Z) : jsstring :=
  lit (DecimalString.NilZero.string_of_int (Z.to_int n)).

(** [String(v)], the conversion a template literal and the
    [URLSearchParams] constructor apply.  An object parsed from JSON is
    converted by [Object.prototype.toString] unless it has a property
    named [toString] of its own, which is then not callable and makes
    the conversion throw; an array is joined with commas. *)
Fixpoint toString (v : value) : result jsstring :=
  match v with
  | VUndefined => Ok (lit "undefined")
  | VNull => Ok (lit "null")
  | VBool b => Ok (if b then lit "true" else lit "false")
  | VNum n => Ok (decimal n)
  | VStr s => Ok s
  | VArr l =>
    (fix join (l : list value) : result jsstring :=
       match l with
       | [] => Ok []
       | x :: rest =>
         match (match x with VUndefined | VNull => Ok [] | _ => toString x end) with
         | Throw e => Throw e
         | Ok a =>
           match join rest with
           | Throw e => Throw e
           | Ok b => Ok (a ++ (match rest with [] => [] | _ => lit "," end) ++ b)
           end
         end
       end) l
  | VObj props =>
    match lookup (lit "toString") props with
    | Some _ => Throw TypeError
    | None => Ok (lit "[object Object]")
    end
  | VNative name _ => Ok (lit "function " ++ name ++ lit "() { [native code] }")
  end.

(* ================================================================= *)
(** ** The component's state and its environment *)

(** The object [fetchArticleExtract] stores in [selectedArticle]. *)
Record Article : Type := {
  title : value;
  content : value;
  url : jsstring }.

(** The [useState] variables of [App] that the query controller owns.
    The theme flag and the placeholder suggestion are written by no
    handler below and are left out. *)
Record State : Type := {
  searchTerm : jsstring;
  results : value;
  loading : bool;
  error : option jsstring;
  selectedArticle : option Article;
  hasSearched : bool }.

Definition initialState : State :=
  {| searchTerm := []; results := VArr []; loading := false;
     error := None; selectedArticle := None; hasSearched := false |}.

(** A GET request: the base URL and the query parameters. *)
Record Request : Type := {
  endpoint : jsstring;
  params : list (jsstring * jsstring) }.

(** The rest of an [async] handler suspended at its [await fetch(...)],
    with the variables it closes over. *)
Inductive task : Type :=
| SearchTask (searchTerm : jsstring)
| ArticleTask (title : value).

(** The component together with what its handlers act on: the console,
    every request issued so far (oldest first), and the handlers
    waiting for a response. *)
Record World : Type := {
  state : State;
  console : list (jsstring * exn);
  network : list Request;
  inflight : list task }.

Definition initialWorld : World :=
  {| state := initialState; console := []; network := []; inflight := [] |}.

(** How a request settles: [fetch] rejects, or resolves with a response
    whose [ok] flag is given and whose [json()] settles as given. *)
Inductive outcome : Type :=
| Rejected (e : exn)
| Responded (ok : bool) (json : result value).

(* ----------------------------------------------------------------- *)
(** *** Handlers as programs: state and exceptions *)

(** A handler changes the world and completes normally or by a throw;
    what it changed before the throw stays changed. *)
Definition M (A : Type) : Type := World -> result A * World.

Definition ret {A} (a : A) : M A := fun w => (Ok a, w).

Definition bind {A B} (m : M A) (k : A -> M B) : M B :=
  fun w => match m w with
           | (Ok a, w') => k a w'
           | (Throw e, w') => (Throw e, w')
           end.

Definition throw {A} (e : exn) : M A := fun w => (Throw e, w).

Definition lift {A} (r : result A) : M A := fun w => (r, w).

Declare Scope js_scope.
Delimit Scope js_scope with js.
Notation "x <- m ;; k" := (bind m (fun x => k))
  (at level 100, m at next level, right associativity) : js_scope.
Notation "m ;; k" := (bind m (fun _ => k))
  (at level 100, right associativity) : js_scope.
Open Scope js_scope.

(** [try { body } catch (err) { handler } finally { fin }] *)
Definition tryCatchFinally (body : M unit) (handler : exn -> M unit) (fin : M unit) : M unit :=
  fun w =>
    let (r, w1) := match body w with
                   | (Ok tt, w1) => (Ok tt, w1)
                   | (Throw e, w1) => handler e w1
                   end in
    match fin w1 with
    | (Ok tt, w2) => (r, w2)
    | (Throw e, w2) => (Throw e, w2)
    end.

(** The world a handler leaves behind. *)
Definition run (m : M unit) (w : World) : World := snd (m w).

Definition getState : M State := fun w => (Ok (state w), w).

Definition modify (f : State -> State) : M unit :=
  fun w => (Ok tt, {| state := f (state w); console := console w;
                      network := network w; inflight := inflight w |}).

Definition setSearchTerm (x : jsstring) : M unit :=
  modify (fun s => {| searchTerm := x; results := results s; loading := loading s;
                      error := error s; selectedArticle := selectedArticle s;
                      hasSearched := hasSearched s |}).

Definition setResults (x : value) : M unit :=
  modify (fun s => {| searchTerm := searchTerm s; results := x; loading := loading s;
                      error := error s; selectedArticle := selectedArticle s;
                      hasSearched := hasSearched s |}).

Definition setLoading (x : bool) : M unit :=
  modify (fun s => {| searchTerm := searchTerm s; results := results s; loading := x;
                      error := error s; selectedArticle := selectedArticle s;
                      hasSearched := hasSearched s |}).

Definition setError (x : option jsstring) : M unit :=
  modify (fun s => {| searchTerm := searchTerm s; results := results s; loading := loading s;
                      error := x; selectedArticle := selectedArticle s;
                      hasSearched := hasSearched s |}).

Definition setSelectedArticle (x : option Article) : M unit :=
  modify (fun s => {| searchTerm := searchTerm s; results := results s; loading := loading s;
                      error := error s; selectedArticle := x;
                      hasSearched := hasSearched s |}).

Definition setHasSearched (x : bool) : M unit :=
  modify (fun s => {| searchTerm := searchTerm s; results := results s; loading := loading s;
                      error := error s; selectedArticle := selectedArticle s;
                      hasSearched := x |}).

(** [console.error(label, err)] *)
Definition console_error (label : jsstring) (err : exn) : M unit :=
  fun w => (Ok tt, {| state := state w; console := console w ++ [(label, err)];
                      network := network w; inflight := inflight w |}).

(** [await fetch(...)]: the request goes out and the rest of the handler
    waits for it to settle. *)
Definition fetch (req : Request) (rest : task) : M unit :=
  fun w => (Ok tt, {| state := state w; console := console w;
                      network := network w ++ [req]; inflight := inflight w ++ [rest] |}).

(** [new Error(message)]: the message is converted to a string, unless
    it is [undefined]. *)
Definition newError (message : value) : result exn :=
  match message with
  | VUndefined => Ok (Error [])
  | _ => match toString message with
         | Ok s => Ok (Error s)
         | Throw e => Throw e
         end
  end.

(** [new URLSearchParams({...})]: every value is converted to a string. *)
Fixpoint newURLSearchParams (init : list (jsstring * value)) : result (list (jsstring * jsstring)) :=
  match init with
  | [] => Ok []
  | (k, v) :: rest =>
    match toString v with
    | Throw e => Throw e
    | Ok s =>
      match newURLSearchParams rest with
      | Throw e => Throw e
      | Ok ps => Ok ((toUSVString k, toUSVString s) :: ps)
      end
    end
  end.

Definition WIKI_API_BASE : jsstring := lit "https://en.wikipedia.org/w/api.php".

(* ================================================================= *)
(** ** The handlers *)

(** [await fetch(url)] followed by the [response.ok] check and
    [await response.json()], as both handlers have them. *)
Definition awaitJson (o : outcome) : M value :=
  match o with
  | Rejected e => throw e
  | Responded ok json =>
    if negb ok then
      e <- lift (newError (VStr (lit "Network response was not ok")));;
      throw e
    else lift json
  end.

(** [handleSearch], up to its [await].  ([e.preventDefault()] touches
    nothing of the component.) *)
Definition handleSearch : M unit :=
  s <- getState;;
  if negb (truthy (VStr (trim (searchTerm s)))) then ret tt
  else
    setHasSearched true;;
    setLoading true;;
    setResults (VArr []);;
    setSelectedArticle None;;
    setError None;;
    params <- lift (newURLSearchParams
      [ (lit "action", VStr (lit "query"));
        (lit "list", VStr (lit "search"));
        (lit "srsearch", VStr (searchTerm s));
        (lit "format", VStr (lit "json"));
        (lit "origin", VStr (lit "*"));
        (lit "srlimit", VNum 10) ]);;
    fetch {| endpoint := WIKI_API_BASE; params := params |} (SearchTask (searchTerm s)).

(** [handleSearch], from the moment its request settles. *)
Definition handleSearch_settled (searchTerm : jsstring) (o : outcome) : M unit :=
  tryCatchFinally
    (data <- awaitJson o;;
     err <- lift (getProp data (lit "error"));;
     (if truthy err then
        info <- lift (getProp err (lit "info"));;
        e <- lift (newError info);;
        throw e
      else ret tt);;
     query <- lift (getProp data (lit "query"));;
     search <- lift (getPropOpt query (lit "search"));;
     let searchResults := orElse search (VArr []) in
     setResults searchResults;;
     len <- lift (getProp searchResults (lit "length"));;
     if strictEqNum len 0 then
       setError (Some (lit "No results found for " ++ dquote ++ searchTerm ++ dquote))
     else ret tt)
    (fun err =>
       console_error (lit "Search error:") err;;
       setError (Some (lit "Failed to fetch search results from Wikipedia.")))
    (setLoading false).

(** [fetchArticleExtract(title)], up to its [await]. *)
Definition fetchArticleExtract (title : value) : M unit :=
  setSelectedArticle None;;
  setLoading true;;
  setError None;;
  params <- lift (newURLSearchParams
    [ (lit "action", VStr (lit "query"));
      (lit "prop", VStr (lit "extracts"));
      (lit "titles", title);
      (lit "explaintext", VBool true);
      (lit "exintro", VBool true);
      (lit "format", VStr (lit "json"));
      (lit "origin", VStr (lit "*"));
      (lit "formatversion", VNum 2);
      (lit "exlimit", VNum 1) ]);;
  fetch {| endpoint := WIKI_API_BASE; params := params |} (ArticleTask title).

(** [encodeURIComponent(v)] on a value. *)
Definition encodeURIComponentOf (v : value) : result jsstring :=
  match toString v with
  | Throw e => Throw e
  | Ok s => match encodeURIComponent s with
            | Some enc => Ok enc
            | None => Throw URIError
            end
  end.

(** [fetchArticleExtract(title)], from the moment its request settles. *)
Definition fetchArticleExtract_settled (title : value) (o : outcome) : M unit :=
  tryCatchFinally
    (data <- awaitJson o;;
     query <- lift (getProp data (lit "query"));;
     pages <- lift (getPropOpt query (lit "pages"));;
     page <- lift (getPropOpt pages (lit "0"));;
     extract <- (if truthy page then lift (getProp page (lit "extract")) else ret page);;
     if truthy extract then
       page_title <- lift (getProp page (lit "title"));;
       page_extract <- lift (getProp page (lit "extract"));;
       enc <- lift (encodeURIComponentOf page_title);;
       setSelectedArticle (Some {| title := page_title;
                                   content := page_extract;
                                   url := lit "https://en.wikipedia.org/wiki/" ++ enc |})
     else
       t <- lift (toString title);;
       setError (Some (lit "Could not retrieve full article content for " ++ t ++ lit ".")))
    (fun err =>
       console_error (lit "Article fetch error:") err;;
       setError (Some (lit "Failed to load article content.")))
    (setLoading false).

Definition clearArticle : M unit := setSelectedArticle None.

(* ----------------------------------------------------------------- *)
(** *** Settling a request *)

(** The handler a task resumes, given how its request settled. *)
Definition resume (t : task) (o : outcome) : M unit :=
  match t with
  | SearchTask searchTerm => handleSearch_settled searchTerm o
  | ArticleTask title => fetchArticleExtract_settled title o
  end.

Definition removeNth {A} (k : nat) (l : list A) : list A :=
  firstn k l ++ skipn (S k) l.

(** The [k]-th waiting handler gets its response.  Nothing happens when
    there is no such handler. *)
Definition settle (k : nat) (o : outcome) (w : World) : World :=
  match nth_error (inflight w) k with
  | Some t =>
    run (resume t o)
        {| state := state w; console := console w; network := network w;
           inflight := removeNth k (inflight w) |}
  | None => w
  end.

(* ----------------------------------------------------------------- *)
(** *** Whole operations *)

(** An operation of the controller run from its start to its completion
    with nothing else happening in between: the handler starts, and the
    request it issued, if it issued one, settles with [o].  The handler
    it left waiting is the one past those already waiting. *)
Definition submitSearch (o : outcome) (w : World) : World :=
  settle (List.length (inflight w)) o (run handleSearch w).

Definition selectArticle (title : value) (o : outcome) (w : World) : World :=
  settle (List.length (inflight w)) o (run (fetchArticleExtract title) w).

Definition dismissArticle (w : World) : World := run clearArticle w.

Inductive operation : Type :=
| OpSubmitSearch (o : outcome)
| OpSelectArticle (title : value) (o : outcome)
| OpDismissArticle.

Definition perform (op : operation) (w : World) : World :=
  match op with
  | OpSubmitSearch o => submitSearch o w
  | OpSelectArticle title o => selectArticle title o w
  | OpDismissArticle => dismissArticle w
  end.

Definition performAll (ops : list operation) (w : World) : World :=
  fold_left (fun w op => perform op w) ops w.

(* ================================================================= *)
(** ** What the user can do *)

(** [MemoizedSearchResults]: [results.map] builds one button per result,
    reading [pageid], [title] and [snippet] of each; the list gives, for
    each button, the title its [onClick] passes to [fetchArticleExtract].
    Rendering throws when [results] has no [map] method or holds an entry
    that is [null]. *)
Fixpoint resultButtons (l : list value) : result (list value) :=
  match l with
  | [] => Ok []
  | r :: rest =>
    match getProp r (lit "pageid"), getProp r (lit "title"), getProp r (lit "snippet") with
    | Ok _, Ok t, Ok _ =>
      match resultButtons rest with
      | Ok ts => Ok (t :: ts)
      | Throw e => Throw e
      end
    | Throw e, _, _ => Throw e
    | _, Throw e, _ => Throw e
    | _, _, Throw e => Throw e
    end
  end.

Definition MemoizedSearchResults (s : State) : result (list value) :=
  match results s with
  | VArr l => resultButtons l
  | _ => Throw TypeError
  end.

(** What can happen to the running component. *)
Inductive event : Type :=
| Typed (text : jsstring)            (* the input's [onChange] *)
| Submit                             (* the form's [onSubmit] *)
| ClickResult (i : nat)              (* [onClick] of the [i]-th result button *)
| CloseArticle                       (* [onClick] of the article's close button *)
| Settle (k : nat) (o : outcome).    (* the [k]-th waiting request settles *)

(** One event; [None] when the event cannot happen in [w].  The result
    buttons are in the tree when no article is selected and [results] is
    not empty, the close button when an article is selected.  The form
    handlers are taken as callable in every state: the [disabled]
    attributes of the input and of the submit button are not relied on. *)
Definition step (w : World) (ev : event) : option World :=
  match ev with
  | Typed text => Some (run (setSearchTerm text) w)
  | Submit => Some (run handleSearch w)
  | ClickResult i =>
    match selectedArticle (state w), MemoizedSearchResults (state w) with
    | None, Ok titles =>
      match nth_error titles i with
      | Some t => Some (run (fetchArticleExtract t) w)
      | None => None
      end
    | _, _ => None
    end
  | CloseArticle =>
    match selectedArticle (state w) with
    | Some _ => Some (run clearArticle w)
    | None => None
    end
  | Settle k o =>
    match nth_error (inflight w) k with
    | Some _ => Some (settle k o w)
    | None => None
    end
  end.

Fixpoint exec (evs : list event) (w : World) : option World :=
  match evs with
  | [] => Some w
  | ev :: rest =>
    match step w ev with
    | Some w' => exec rest w'
    | None => None
    end
  end.

Definition reachable (w : World) : Prop :=
  exists evs, exec evs initialWorld = Some w.

(* ================================================================= *)
(** ** Reading the remote responses *)

(** The expressions the handlers evaluate on a response, named so that
    statements can speak about a response the way the handlers read it. *)

(** [data.error] is set: the remote reports an error. *)
Definition remoteError (data : value) : bool :=
  match getProp data (lit "error") with
  | Ok e => truthy e
  | Throw _ => false
  end.

(** [data.query?.search || []] when that is an array: the matches of a
    search response, in the order of the response.  A response without
    [query.search] has no matches. *)
Definition matchesOf (data : value) : option (list value) :=
  match getProp data (lit "query") with
  | Ok query =>
    match getPropOpt query (lit "search") with
    | Ok search =>
      match orElse search (VArr []) with
      | VArr l => Some l
      | _ => None
      end
    | Throw _ => None
    end
  | Throw _ => None
  end.

(** [data.query?.pages?.[0]]: the page entry of an extraction response. *)
Definition pageOf (data : value) : result value :=
  match getProp data (lit "query") with
  | Ok query =>
    match getPropOpt query (lit "pages") with
    | Ok pages => getPropOpt pages (lit "0")
    | Throw e => Throw e
    end
  | Throw e => Throw e
  end.

(** [page && page.extract] *)
Definition extractOf (page : value) : result value :=
  if truthy page then getProp page (lit "extract") else Ok page.

(** The request [handleSearch] sends for a term. *)
Definition searchRequest (term : jsstring) : Request :=
  {| endpoint := WIKI_API_BASE;
     params := [ (lit "action", lit "query");
                 (lit "list", lit "search");
                 (lit "srsearch", toUSVString term);
                 (lit "format", lit "json");
                 (lit "origin", lit "*");
                 (lit "srlimit", lit "10") ] |}.

(** The request [fetchArticleExtract] sends for a title given as text. *)
Definition extractRequest (title : jsstring) : Request :=
  {| endpoint := WIKI_API_BASE;
     params := [ (lit "action", lit "query");
                 (lit "prop", lit "extracts");
                 (lit "titles", toUSVString title);
                 (lit "explaintext", lit "true");
                 (lit "exintro", lit "true");
                 (lit "format", lit "json");
                 (lit "origin", lit "*");
                 (lit "formatversion", lit "2");
                 (lit "exlimit", lit "1") ] |}.

(** The value of a query parameter of a request. *)
Definition param (name : string) (req : Request) : option jsstring :=
  option_map snd (find (fun p => jsstring_eqb (fst p) (lit name)) (params req)).

(** The messages the handlers show. *)
Definition noResultsMessage (term : jsstring) : jsstring :=
  lit "No results found for " ++ dquote ++ term ++ dquote.

Definition searchFailedMessage : jsstring :=
  lit "Failed to fetch search results from Wikipedia.".

Definition noExtractMessage (title : jsstring) : jsstring :=
  lit "Could not retrieve full article content for " ++ title ++ lit ".".

Definition articleFailedMessage : jsstring :=
  lit "Failed to load article content.".

Definition articleURL (encoded : jsstring) : jsstring :=
  lit "https://en.wikipedia.org/wiki/" ++ encoded.

(** Error and selected article are not both set. *)
Definition exclusive (s : State) : Prop :=
  error s = None \/ selectedArticle s = None.


(** The failure of a request that delivered no JSON document: [fetch]
    rejected (transport), the status was not a success, or the body could
    not be read.  It is what the handler's [catch] receives. *)
Definition failureOf (o : outcome) : option exn :=
  match o with
  | Rejected e => Some e
  | Responded false _ => Some (Error (lit "Network response was not ok"))
  | Responded true (Throw e) => Some e
  | Responded true (Ok _) => None
  end.

(** The text of an error payload [{error: {info}}]. *)
Definition errorInfo (data : value) : option jsstring :=
  match getProp data (lit "error") with
  | Ok err =>
    if truthy err then
      match getProp err (lit "info") with
      | Ok (VStr info) => Some info
      | _ => None
      end
    else None
  | Throw _ => None
  end.

(** The state either handler's [catch] and [finally] leave. *)
Definition failed (message : jsstring) (s : State) : State :=
  {| searchTerm := searchTerm s; results := results s; loading := false;
     error := Some message; selectedArticle := selectedArticle s;
     hasSearched := hasSearched s |}.

(* ----------------------------------------------------------------- *)
(** *** Sample responses *)

Definition str (s : string) : value := VStr (lit s).

(** An entry of [query.search]. *)
Definition searchResult (pageid : Z) (title snippet : string) : value :=
  VObj [(lit "ns", VNum 0); (lit "title", str title); (lit "pageid", VNum pageid); (lit "snippet", str snippet)].

(** [{batchcomplete: "", query: {search: [...]}}] *)
Definition searchResponse (matches : list value) : value :=
  VObj [(lit "batchcomplete", str ""); (lit "query", VObj [(lit "search", VArr matches)])].

(** [{batchcomplete: true, query: {pages: [{pageid, title, extract}]}}] *)
Definition extractResponse (pageid : Z) (title extract : string) : value :=
  VObj [(lit "batchcomplete", VBool true);
       (lit "query", VObj [(lit "pages", VArr [VObj [(lit "pageid", VNum pageid); (lit "ns", VNum 0);
                                           (lit "title", str title); (lit "extract", str extract)]])])].

(** [{batchcomplete: true, query: {pages: [{title, missing: true}]}}] *)
Definition missingResponse (title : string) : value :=
  VObj [(lit "batchcomplete", VBool true);
       (lit "query", VObj [(lit "pages", VArr [VObj [(lit "title", str title); (lit "ns", VNum 0);
                                           (lit "missing", VBool true)]])])].

(** [{error: {code, info}}] *)
Definition errorResponse (code info : string) : value :=
  VObj [(lit "error", VObj [(lit "code", str code); (lit "info", str info)])].

Definition elevenMatches : list value :=
  map (fun i => searchResult (Z.of_nat i) "Moon" "s") (seq 1 11).

(* ----------------------------------------------------------------- *)
(** *** Titles along a run *)

(** Every entry of a result list has a title that does not read as the
    empty string. *)
Definition titled (l : list value) : Prop :=
  Forall (fun r => forall t, getProp r (lit "title") = Ok t -> toString t <> Ok []) l.

(** A search response all of whose matches are titled. *)
Definition titledOutcome (o : outcome) : Prop :=
  forall data l, o = Responded true (Ok data) -> matchesOf data = Some l -> titled l.

(** Along the run of [evs] from [w], every response delivered to a
    waiting search is titled. *)
Fixpoint titledRun (evs : list event) (w : World) : Prop :=
  match evs with
  | [] => True
  | ev :: rest =>
    match ev with
    | Settle k o =>
      match nth_error (inflight w) k with
      | Some (SearchTask _) => titledOutcome o
      | _ => True
      end
    | _ => True
    end
    /\ match step w ev with
       | Some w' => titledRun rest w'
       | None => True
       end
  end.

(** No request issued so far asks for an extract with an empty [titles]. *)
Definition noEmptyTitles (w : World) : Prop :=
  forall req, In req (network w) -> param "titles" req <> Some [].

(** What a run keeps true: the result list is titled, and no request
    with an empty [titles] has gone out. *)
Definition titledWorld (w : World) : Prop :=
  (forall l, results (state w) = VArr l -> titled l) /\ noEmptyTitles w.

(* ================================================================= *)
(** ** Proof steps *)

(** Unfolds the monad and the setters, leaving the reads of the response
    in place. *)
Ltac js_unfold :=
  cbv beta iota delta
    [run bind ret throw lift tryCatchFinally awaitJson getState modify
     setSearchTerm setResults setLoading setError setSelectedArticle setHasSearched
     console_error fetch negb snd fst];
  cbn [state console network inflight
       searchTerm results loading error selectedArticle hasSearched].

(** Splits on every read of the response a handler makes. *)
Ltac js_cases :=
  repeat (js_unfold;
          match goal with
          | |- context [match getProp ?a ?b with _ => _ end] => destruct (getProp a b) eqn:?
          | |- context [match getPropOpt ?a ?b with _ => _ end] => destruct (getPropOpt a b) eqn:?
          | |- context [match toString ?a with _ => _ end] => destruct (toString a) eqn:?
          | |- context [match newError ?a with _ => _ end] => destruct (newError a) eqn:?
          | |- context [match encodeURIComponentOf ?a with _ => _ end] =>
            destruct (encodeURIComponentOf a) eqn:?
          | |- context [if truthy ?a then _ else _] => destruct (truthy a) eqn:?
          | |- context [if strictEqNum ?a ?b then _ else _] => destruct (strictEqNum a b) eqn:?
          end);
  js_unfold.

(* ================================================================= *)
(** ** The rendered tree *)

(** One [<button>] of [MemoizedSearchResults]: its React key, which is
    [result.pageid] converted to a string when there is one, the title
    in its heading, which is also the one its [onClick] passes on, and
    the HTML of its snippet. *)
Record ResultButton : Type := {
  buttonKey : option jsstring;
  buttonTitle : value;
  buttonSnippet : value }.

(** [results.map((result) => <button key={result.pageid} ...>)].  Building
    an element throws when the entry is [null] or when its key cannot be
    converted to a string. *)
Fixpoint resultElements (l : list value) : result (list ResultButton) :=
  match l with
  | [] => Ok []
  | r :: rest =>
    match getProp r (lit "pageid"), getProp r (lit "title"), getProp r (lit "snippet") with
    | Ok pageid, Ok t, Ok snippet =>
      match (match pageid with
             | VUndefined => Ok None
             | _ => match toString pageid with
                    | Ok k => Ok (Some k)
                    | Throw e => Throw e
                    end
             end) with
      | Throw e => Throw e
      | Ok k =>
        match resultElements rest with
        | Ok bs => Ok ({| buttonKey := k; buttonTitle := t; buttonSnippet := snippet |} :: bs)
        | Throw e => Throw e
        end
      end
    | Throw e, _, _ => Throw e
    | _, Throw e, _ => Throw e
    | _, _, Throw e => Throw e
    end
  end.

(** What the tree returned by [App] holds, block by block. *)
Record View : Type := {
  suggestionOverlay : bool;       (* [!searchTerm && !hasSearched] *)
  inputPlaceholder : jsstring;    (* [inputPlaceholderText] *)
  inputDisabled : bool;           (* [disabled={loading}] *)
  submitDisabled : bool;          (* [disabled={loading || !searchTerm.trim()}] *)
  submitLabel : jsstring;         (* [loading ? 'Searching...' : 'Search'] *)
  loadingBox : bool;              (* [loading && ...] *)
  errorBox : option jsstring;     (* [error && ...], with the message shown *)
  articleCard : option Article;   (* [selectedArticle ? MemoizedArticleView : ...] *)
  resultsCard : option (nat * list ResultButton);
                                  (* [results.length > 0 && ...], with the count shown *)
  startPlaceholder : bool }.      (* [!loading && !error && results.length === 0
                                      && !selectedArticle] *)

(** The body of [App] from the state to the returned tree.  The memoised
    result buttons are built on every render, whether shown or not, and
    that fails unless [results] is an array. *)
Definition App (s : State) : result View :=
  match results s with
  | VArr l =>
    match resultElements l with
    | Throw e => Throw e
    | Ok buttons =>
      let shownError :=
        match error s with
        | Some message => if truthy (VStr message) then Some message else None
        | None => None
        end in
      Ok {| suggestionOverlay := negb (truthy (VStr (searchTerm s))) && negb (hasSearched s);
            inputPlaceholder :=
              if hasSearched s then lit "Search for articles again..." else [];
            inputDisabled := loading s;
            submitDisabled := loading s || negb (truthy (VStr (trim (searchTerm s))));
            submitLabel := if loading s then lit "Searching..." else lit "Search";
            loadingBox := loading s;
            errorBox := shownError;
            articleCard := selectedArticle s;
            resultsCard :=
              match selectedArticle s with
              | Some _ => None
              | None =>
                if (0 <? List.length l)%nat then Some (List.length l, buttons) else None
              end;
            startPlaceholder :=
              negb (loading s)
              && match shownError with Some _ => false | None => true end
              && (List.length l =? 0)%nat
              && match selectedArticle s with Some _ => false | None => true end |}
    end
  | _ => Throw TypeError
  end.

(* ================================================================= *)
(** ** The placeholder suggestions *)

Definition suggestions : list jsstring :=
  [ lit "The history of React Hooks";
    lit "Explain quantum computing simply";
    lit "Who invented the first battery?";
    lit "What is the principle of relativity?";
    lit "The life cycle of a star";
    lit "Search for a great recipe";
    lit "Interesting facts about Jupiter" ].

(** The first position of [x] in [l]. *)
Fixpoint position (l : list jsstring) (x : jsstring) : option nat :=
  match l with
  | [] => None
  | y :: rest =>
    if jsstring_eqb y x then Some O else option_map S (position rest x)
  end.

(** [l.indexOf(x)]: the first position of [x], or [-1]. *)
Definition indexOf (l : list jsstring) (x : jsstring) : Z :=
  match position l x with
  | Some i => Z.of_nat i
  | None => -1
  end.

(** The updater passed to [setCurrentSuggestion] by the interval: the
    suggestion after [prevSuggestion], wrapping around.  [None] stands
    for [undefined]. *)
Definition nextSuggestion (prevSuggestion : jsstring) : option jsstring :=
  let currentIndex := indexOf suggestions prevSuggestion in
  let nextIndex := Z.rem (currentIndex + 1) (Z.of_nat (List.length suggestions)) in
  nth_error suggestions (Z.to_nat nextIndex).

(** [n] rounds of the interval, starting from [s]. *)
Fixpoint cycle (n : nat) (s : jsstring) : option jsstring :=
  match n with
  | O => Some s
  | S n' => match nextSuggestion s with
            | Some s' => cycle n' s'
            | None => None
            end
  end.

(* ================================================================= *)
(** ** The dark mode preference *)

(** [localStorage]: its items, and the exception its reads and its writes
    throw when they fail (storage denied, quota exceeded). *)
Record Storage : Type := {
  items : list (jsstring * jsstring);
  readFault : option exn;
  writeFault : option exn }.

(** [localStorage.getItem(k)]; [Ok None] stands for [null]. *)
Definition getItem (st : Storage) (k : jsstring) : result (option jsstring) :=
  match readFault st with
  | Some e => Throw e
  | None => Ok (option_map snd (find (fun p => jsstring_eqb (fst p) k) (items st)))
  end.

Fixpoint setAssoc (k v : jsstring) (l : list (jsstring * jsstring)) : list (jsstring * jsstring) :=
  match l with
  | [] => [(k, v)]
  | (k', v') :: rest =>
    if jsstring_eqb k' k then (k, v) :: rest else (k', v') :: setAssoc k v rest
  end.

(** [localStorage.setItem(k, v)] *)
Definition setItem (st : Storage) (k v : jsstring) : result Storage :=
  match writeFault st with
  | Some e => Throw e
  | None => Ok {| items := setAssoc k v (items st);
                  readFault := readFault st; writeFault := writeFault st |}
  end.

Definition darkModeKey : jsstring := lit "wikiExplorerDarkMode".

(** The theme flag with what its effects act on. *)
Record Theme : Type := {
  isDarkMode : bool;
  localStorage : Storage;
  themeConsole : list (jsstring * exn) }.

(** The effect that loads the preference.  [matchMedia] is [None] when
    [window.matchMedia] is missing, and otherwise what the query for a
    dark colour scheme matches.  The result is the value passed to
    [setIsDarkMode], if it is called, and what goes to the console. *)
Definition loadDarkMode (st : Storage) (matchMedia : option bool)
  : option bool * list (jsstring * exn) :=
  match getItem st darkModeKey with
  | Throw e =>
    (None, [(lit "Could not load dark mode preference from localStorage:", e)])
  | Ok (Some savedMode) => (Some (jsstring_eqb savedMode (lit "true")), [])
  | Ok None =>
    match matchMedia with
    | Some matches => (Some matches, [])
    | None => (None, [])
    end
  end.

(** The effect that saves the preference; the boolean is stored as the
    string it converts to. *)
Definition saveDarkMode (t : Theme) : Theme :=
  match setItem (localStorage t) darkModeKey
                (if isDarkMode t then lit "true" else lit "false") with
  | Ok st => {| isDarkMode := isDarkMode t; localStorage := st;
                themeConsole := themeConsole t |}
  | Throw e =>
    {| isDarkMode := isDarkMode t; localStorage := localStorage t;
       themeConsole := themeConsole t
         ++ [(lit "Could not save dark mode preference to localStorage:", e)] |}
  end.

(** Mounting the component.  The first render has the flag off.  After
    it both effects run, the loading one first, and both see that render:
    the saving effect stores the flag of the first render.  If the loading
    effect changed the flag, the component renders again and the saving
    effect, which depends on the flag, runs again.  Each effect runs once
    per commit, as in a production build; the second run of effects that
    [React.StrictMode] adds in development is not part of it. *)
Definition mountTheme (st : Storage) (matchMedia : option bool) : Theme :=
  let (loaded, log) := loadDarkMode st matchMedia in
  let first := saveDarkMode {| isDarkMode := false; localStorage := st;
                               themeConsole := log |} in
  match loaded with
  | Some true =>
    saveDarkMode {| isDarkMode := true; localStorage := localStorage first;
                    themeConsole := themeConsole first |}
  | _ => first
  end.

(** [toggleDarkMode], followed by the render it causes and the saving
    effect of that render. *)
Definition toggleDarkMode (t : Theme) : Theme :=
  saveDarkMode {| isDarkMode := negb (isDarkMode t); localStorage := localStorage t;
                  themeConsole := themeConsole t |}.

Fixpoint toggles (n : nat) (t : Theme) : Theme :=
  match n with
  | O => t
  | S n' => toggles n' (toggleDarkMode t)
  end.

(** The text a flag is stored as. *)
Definition modeText (b : bool) : jsstring := if b then lit "true" else lit "false".

(** What holds after mounting and after every toggle, with a storage
    that works: the stored text is the flag. *)
Definition inStep (t : Theme) : Prop :=
  writeFault (localStorage t) = None
  /\ readFault (localStorage t) = None
  /\ getItem (localStorage t) darkModeKey = Ok (Some (modeText (isDarkMode t))).

(* ================================================================= *)
(** ** Reading runs *)

(** The article [fetchArticleExtract] builds from a response, when it
    builds one: the page entry has an extract that is not empty and a
    title that can be percent-encoded. *)
Definition articleOf (data : value) : option Article :=
  match pageOf data with
  | Ok page =>
    match extractOf page with
    | Ok extract =>
      if truthy extract then
        match getProp page (lit "title") with
        | Ok page_title =>
          match encodeURIComponentOf page_title with
          | Ok enc => Some {| title := page_title; content := extract;
                              url := lit "https://en.wikipedia.org/wiki/" ++ enc |}
          | Throw _ => None
          end
        | Throw _ => None
        end
      else None
    | Throw _ => None
    end
  | Throw _ => None
  end.

(** The two requests the component sends: a search for a term that is
    not blank, or an extract for some title. *)
Definition knownRequest (req : Request) : Prop :=
  (exists term, trim term <> [] /\ req = searchRequest term)
  \/ (exists t, req = extractRequest t).

(** No event of the run types into the input. *)
Definition noTyping (evs : list event) : Prop :=
  forall text, ~ In (Typed text) evs.

(** A character of a percent-encoded URL component: unreserved, [%], or
    an upper-case hexadecimal digit. *)
Definition urlSafe (c : N) : bool :=
  (uriUnreserved c || (c =? 37) || (48 <=? c) && (c <=? 57) || (65 <=? c) && (c <=? 70))%N.

(** Every element is a 16-bit code unit. *)
Definition codeUnits (s : jsstring) : Prop := Forall (fun c => (c < 65536)%N) s.
(* ================================================================= *)
(** ** The builtins on examples *)

Example encode_space : encodeURIComponent (lit "Quantum computing") = Some (lit "Quantum%20computing").
Proof. reflexivity. Qed.

Example encode_non_ascii :
  encodeURIComponent [0xE9; 0xD83D; 0xDE00]%N = Some (lit "%C3%A9%F0%9F%98%80").
Proof. reflexivity. Qed.

Example encode_lone_surrogate : encodeURIComponent [0xD800%N] = None.
Proof. reflexivity. Qed.

Example trim_spaces : trim (lit "  a b	 ") = lit "a b".
Proof. reflexivity. Qed.

Example toString_array :
  toString (VArr [VNum 1; VNull; VStr (lit "a"); VArr [VNum (-2); VBool true]]) = Ok (lit "1,,a,-2,true").
Proof. reflexivity. Qed.

Example getProp_index : getProp (VArr [VNum 7; VNum 8]) (lit "1") = Ok (VNum 8).
Proof. reflexivity. Qed.

(* ================================================================= *)
(** ** Basic facts *)

Lemma nth_error_snoc {A} (l : list A) (x : A) :
  nth_error (l ++ [x]) (List.length l) = Some x.
Proof.
  induction l as [|a l IH]; simpl; [reflexivity | exact IH].
Qed.

Lemma removeNth_snoc {A} (l : list A) (x : A) :
  removeNth (List.length l) (l ++ [x]) = l.
Proof.
  unfold removeNth.
  induction l as [|a l IH]; simpl; [reflexivity | now f_equal].
Qed.

Lemma nth_error_length_none {A} (l : list A) :
  nth_error l (List.length l) = None.
Proof. apply nth_error_None. lia. Qed.

Lemma toUSVString_nil s : toUSVString s = [] -> s = [].
Proof.
  destruct s as [|c s]; [reflexivity|]. simpl.
  destruct (isLeadSurrogate c).
  - destruct s as [|d s]; [discriminate|].
    destruct (isTrailSurrogate d); discriminate.
  - destruct (isTrailSurrogate c); discriminate.
Qed.

(** Only [undefined] and [null] make a property read throw. *)
Lemma getProp_throws v k e :
  getProp v k = Throw e -> v = VUndefined \/ v = VNull.
Proof.
  destruct v; simpl; auto; intros H; exfalso;
    repeat match type of H with
           | (if ?c then _ else _) = _ => destruct c
           | match ?c with _ => _ end = _ => destruct c
           end; discriminate.
Qed.

Lemma getProp_truthy v k : truthy v = true -> exists x, getProp v k = Ok x.
Proof.
  intros Hv. destruct (getProp v k) eqn:E; [eauto|].
  apply getProp_throws in E. destruct E; subst; discriminate.
Qed.

Lemma getProp_independent v k k' x :
  getProp v k = Ok x -> exists y, getProp v k' = Ok y.
Proof.
  intros H. destruct (getProp v k') eqn:E; [eauto|].
  apply getProp_throws in E. destruct E; subst; discriminate.
Qed.

(** The handler's guard, [!searchTerm.trim()]. *)
Lemma guard_blank s : trim s = [] -> negb (truthy (VStr (trim s))) = true.
Proof. intros ->. reflexivity. Qed.

Lemma guard_nonblank s : trim s <> [] -> negb (truthy (VStr (trim s))) = false.
Proof. destruct (trim s); [congruence | reflexivity]. Qed.

(* ----------------------------------------------------------------- *)
(** *** The starting parts of the handlers *)

Lemma handleSearch_blank w :
  trim (searchTerm (state w)) = [] -> handleSearch w = (Ok tt, w).
Proof.
  intros H. unfold handleSearch, bind, getState.
  rewrite (guard_blank _ H). reflexivity.
Qed.

Lemma handleSearch_start w :
  trim (searchTerm (state w)) <> [] ->
  handleSearch w =
  (Ok tt,
   {| state := {| searchTerm := searchTerm (state w); results := VArr [];
                  loading := true; error := None; selectedArticle := None;
                  hasSearched := true |};
      console := console w;
      network := network w ++ [searchRequest (searchTerm (state w))];
      inflight := inflight w ++ [SearchTask (searchTerm (state w))] |}).
Proof.
  intros H. unfold handleSearch, bind, getState.
  rewrite (guard_nonblank _ H). reflexivity.
Qed.

Lemma fetchArticleExtract_start (t : jsstring) w :
  fetchArticleExtract (VStr t) w =
  (Ok tt,
   {| state := {| searchTerm := searchTerm (state w); results := results (state w);
                  loading := true; error := None; selectedArticle := None;
                  hasSearched := hasSearched (state w) |};
      console := console w;
      network := network w ++ [extractRequest t];
      inflight := inflight w ++ [ArticleTask (VStr t)] |}).
Proof. reflexivity. Qed.

(* ----------------------------------------------------------------- *)
(** *** The handlers once their request has settled *)

Lemma handleSearch_settled_loaded term data l w :
  remoteError data = false ->
  matchesOf data = Some l ->
  run (handleSearch_settled term (Responded true (Ok data))) w =
  {| state := {| searchTerm := searchTerm (state w); results := VArr l;
                 loading := false;
                 error := match l with
                          | [] => Some (noResultsMessage term)
                          | _ => error (state w)
                          end;
                 selectedArticle := selectedArticle (state w);
                 hasSearched := hasSearched (state w) |};
     console := console w; network := network w; inflight := inflight w |}.
Proof.
  unfold remoteError, matchesOf. intros He Hm.
  destruct (getProp data (lit "error")) as [err|] eqn:E1.
  2:{ apply getProp_throws in E1. destruct E1; subst; discriminate. }
  destruct (getProp data (lit "query")) as [query|] eqn:E2; [|discriminate].
  destruct (getPropOpt query (lit "search")) as [search|] eqn:E3; [|discriminate].
  destruct (orElse search (VArr [])) eqn:E4; try discriminate.
  injection Hm as ->.
  unfold handleSearch_settled. js_unfold.
  rewrite E1, He. js_unfold. rewrite E2, E3, E4.
  change (getProp (VArr l) (lit "length")) with (Ok (VNum (Z.of_nat (List.length l)))).
  destruct l; reflexivity.
Qed.

Lemma handleSearch_settled_failed term o e w :
  failureOf o = Some e ->
  run (handleSearch_settled term o) w =
  {| state := failed searchFailedMessage (state w);
     console := console w ++ [(lit "Search error:", e)];
     network := network w; inflight := inflight w |}.
Proof.
  destruct o as [e'|[|] [data|e']]; simpl; intros H; inversion H; subst; reflexivity.
Qed.

Lemma handleSearch_settled_reported term data w :
  remoteError data = true ->
  exists e,
    run (handleSearch_settled term (Responded true (Ok data))) w =
    {| state := failed searchFailedMessage (state w);
       console := console w ++ [(lit "Search error:", e)];
       network := network w; inflight := inflight w |}
    /\ (forall info, errorInfo data = Some info -> e = Error info).
Proof.
  unfold remoteError, errorInfo. intros He.
  destruct (getProp data (lit "error")) as [err|] eqn:E1; [|discriminate].
  destruct (getProp_truthy err (lit "info") He) as [info E2].
  unfold handleSearch_settled. js_unfold.
  rewrite E1, He. js_unfold. rewrite E2.
  destruct (newError info) as [e|e] eqn:E3.
  - exists e. split; [reflexivity|].
    intros s Hs. destruct info; try discriminate.
    injection Hs as <-. simpl in E3. congruence.
  - exists e. split; [reflexivity|].
    intros s Hs. destruct info; try discriminate.
Qed.

Lemma fetchArticleExtract_settled_failed title o e w :
  failureOf o = Some e ->
  run (fetchArticleExtract_settled title o) w =
  {| state := failed articleFailedMessage (state w);
     console := console w ++ [(lit "Article fetch error:", e)];
     network := network w; inflight := inflight w |}.
Proof.
  destruct o as [e'|[|] [data|e']]; simpl; intros H; inversion H; subst; reflexivity.
Qed.

Lemma extractOf_truthy page ext :
  extractOf page = Ok ext -> truthy ext = true ->
  truthy page = true /\ getProp page (lit "extract") = Ok ext.
Proof.
  unfold extractOf. destruct (truthy page) eqn:E.
  - auto.
  - intros H. injection H as <-. congruence.
Qed.

Lemma fetchArticleExtract_settled_viewing title data page ext pt enc w :
  pageOf data = Ok page ->
  extractOf page = Ok ext ->
  truthy ext = true ->
  getProp page (lit "title") = Ok pt ->
  encodeURIComponentOf pt = Ok enc ->
  run (fetchArticleExtract_settled title (Responded true (Ok data))) w =
  {| state := {| searchTerm := searchTerm (state w); results := results (state w);
                 loading := false; error := error (state w);
                 selectedArticle :=
                   Some {| title := pt; content := ext; url := articleURL enc |};
                 hasSearched := hasSearched (state w) |};
     console := console w; network := network w; inflight := inflight w |}.
Proof.
  unfold pageOf. intros Hp He Ht Hpt Henc.
  destruct (extractOf_truthy _ He Ht) as [Htp Hx].
  destruct (getProp data (lit "query")) as [query|] eqn:E1; [|discriminate].
  destruct (getPropOpt query (lit "pages")) as [pages|] eqn:E2; [|discriminate].
  unfold fetchArticleExtract_settled. js_unfold.
  rewrite E1, E2, Hp, Htp. js_unfold. rewrite Hx, Ht, Hpt. js_unfold.
  rewrite Henc. reflexivity.
Qed.

Lemma fetchArticleExtract_settled_missing title data page ext t w :
  pageOf data = Ok page ->
  extractOf page = Ok ext ->
  truthy ext = false ->
  toString title = Ok t ->
  run (fetchArticleExtract_settled title (Responded true (Ok data))) w =
  {| state := {| searchTerm := searchTerm (state w); results := results (state w);
                 loading := false; error := Some (noExtractMessage t);
                 selectedArticle := selectedArticle (state w);
                 hasSearched := hasSearched (state w) |};
     console := console w; network := network w; inflight := inflight w |}.
Proof.
  unfold pageOf, extractOf. intros Hp He Ht Hs.
  destruct (getProp data (lit "query")) as [query|] eqn:E1; [|discriminate].
  destruct (getPropOpt query (lit "pages")) as [pages|] eqn:E2; [|discriminate].
  unfold fetchArticleExtract_settled. js_unfold.
  rewrite E1, E2, Hp.
  destruct (truthy page) eqn:Htp; js_unfold.
  - rewrite He, Ht. js_unfold. rewrite Hs. reflexivity.
  - injection He as <-. rewrite Htp. js_unfold. rewrite Hs. reflexivity.
Qed.

(* ----------------------------------------------------------------- *)
(** *** Whole operations *)

Lemma submitSearch_blank o w :
  trim (searchTerm (state w)) = [] -> submitSearch o w = w.
Proof.
  intros H. unfold submitSearch, run. rewrite (handleSearch_blank _ H).
  unfold settle. simpl. now rewrite nth_error_length_none.
Qed.

Lemma submitSearch_nonblank o w :
  trim (searchTerm (state w)) <> [] ->
  submitSearch o w =
  run (handleSearch_settled (searchTerm (state w)) o)
      {| state := {| searchTerm := searchTerm (state w); results := VArr [];
                     loading := true; error := None; selectedArticle := None;
                     hasSearched := true |};
         console := console w;
         network := network w ++ [searchRequest (searchTerm (state w))];
         inflight := inflight w |}.
Proof.
  intros H. unfold submitSearch.
  change (run handleSearch w) with (snd (handleSearch w)).
  rewrite (handleSearch_start _ H).
  unfold settle. cbn [snd inflight state console network].
  now rewrite nth_error_snoc, removeNth_snoc.
Qed.

Lemma selectArticle_text (t : jsstring) o w :
  selectArticle (VStr t) o w =
  run (fetchArticleExtract_settled (VStr t) o)
      {| state := {| searchTerm := searchTerm (state w); results := results (state w);
                     loading := true; error := None; selectedArticle := None;
                     hasSearched := hasSearched (state w) |};
         console := console w;
         network := network w ++ [extractRequest t];
         inflight := inflight w |}.
Proof.
  unfold selectArticle.
  change (run (fetchArticleExtract (VStr t)) w) with (snd (fetchArticleExtract (VStr t) w)).
  rewrite fetchArticleExtract_start.
  unfold settle. cbn [snd inflight state console network].
  now rewrite nth_error_snoc, removeNth_snoc.
Qed.

Lemma contains_middle (a x b : jsstring) : contains (a ++ x ++ b) x.
Proof. now exists a, b. Qed.

(* ----------------------------------------------------------------- *)
(** *** What the handlers leave alone *)

(** However its request settles, [fetchArticleExtract] ends with loading
    over and with either an article selected and the error untouched, or
    an error set and the selection untouched; it issues nothing and
    touches neither the term nor the result list. *)
Lemma fetchArticleExtract_settled_frame title o w :
  let w' := run (fetchArticleExtract_settled title o) w in
  network w' = network w /\ inflight w' = inflight w
  /\ searchTerm (state w') = searchTerm (state w)
  /\ results (state w') = results (state w)
  /\ hasSearched (state w') = hasSearched (state w)
  /\ loading (state w') = false
  /\ ((exists a, selectedArticle (state w') = Some a /\ error (state w') = error (state w))
      \/ (exists m, error (state w') = Some m
                    /\ selectedArticle (state w') = selectedArticle (state w))).
Proof.
  unfold fetchArticleExtract_settled. cbv zeta.
  destruct o as [e|[|] [data|e]]; js_cases;
    repeat split; try reflexivity; solve [left; eauto | right; eauto].
Qed.

(** However its request settles, [handleSearch] ends with loading over;
    it issues nothing and touches neither the term nor the selection.
    The result list is what it was, or what the response holds. *)
Lemma handleSearch_settled_frame term o w :
  let w' := run (handleSearch_settled term o) w in
  network w' = network w /\ inflight w' = inflight w
  /\ searchTerm (state w') = searchTerm (state w)
  /\ selectedArticle (state w') = selectedArticle (state w)
  /\ hasSearched (state w') = hasSearched (state w)
  /\ loading (state w') = false
  /\ (results (state w') = results (state w)
      \/ exists data query search,
           o = Responded true (Ok data)
           /\ getProp data (lit "query") = Ok query
           /\ getPropOpt query (lit "search") = Ok search
           /\ results (state w') = orElse search (VArr [])).
Proof.
  unfold handleSearch_settled. cbv zeta.
  destruct o as [e|[|] [data|e]]; js_cases;
    repeat split; try reflexivity; solve [left; reflexivity | right; eauto 10].
Qed.

(** The starting part of [fetchArticleExtract] for any argument: the
    selection and the error are cleared, and the request goes out unless
    the argument cannot be converted to a string. *)
Lemma fetchArticleExtract_start_frame title w :
  let w' := run (fetchArticleExtract title) w in
  state w' = {| searchTerm := searchTerm (state w); results := results (state w);
                loading := true; error := None; selectedArticle := None;
                hasSearched := hasSearched (state w) |}
  /\ console w' = console w
  /\ ((exists e, toString title = Throw e
                 /\ network w' = network w /\ inflight w' = inflight w)
      \/ (exists s, toString title = Ok s
                    /\ network w' = network w ++ [extractRequest s]
                    /\ inflight w' = inflight w ++ [ArticleTask title])).
Proof.
  cbv zeta. unfold fetchArticleExtract. js_unfold.
  cbn [newURLSearchParams toString].
  destruct (toString title) as [s|e] eqn:E.
  - repeat split. right. exists s. repeat split.
  - repeat split. left. exists e. repeat split.
Qed.


(* ----------------------------------------------------------------- *)
(** *** Whole operations, for any argument *)

Lemma world_eta w :
  w = {| state := state w; console := console w; network := network w;
         inflight := inflight w |}.
Proof. now destruct w. Qed.

Lemma state_eta s :
  s = {| searchTerm := searchTerm s; results := results s; loading := loading s;
         error := error s; selectedArticle := selectedArticle s;
         hasSearched := hasSearched s |}.
Proof. now destruct s. Qed.

(** [selectArticle] either stops in its starting part, the argument not
    being convertible to a string, or runs to the end of the handler. *)
Lemma selectArticle_cases title o w :
  let started := {| searchTerm := searchTerm (state w); results := results (state w);
                    loading := true; error := None; selectedArticle := None;
                    hasSearched := hasSearched (state w) |} in
  (exists e, toString title = Throw e
             /\ selectArticle title o w =
                {| state := started; console := console w; network := network w;
                   inflight := inflight w |})
  \/ (exists s, toString title = Ok s
                /\ selectArticle title o w =
                   run (fetchArticleExtract_settled title o)
                       {| state := started; console := console w;
                          network := network w ++ [extractRequest s];
                          inflight := inflight w |}).
Proof.
  intros started. unfold selectArticle.
  destruct (fetchArticleExtract_start_frame title w) as [Hs [Hc Hn]].
  rewrite (world_eta (run (fetchArticleExtract title) w)).
  rewrite Hs, Hc.
  destruct Hn as [[e [He [Hn Hi]]] | [s [He [Hn Hi]]]]; rewrite Hn, Hi.
  - left. exists e. split; [exact He|].
    unfold settle. cbn [inflight]. now rewrite nth_error_length_none.
  - right. exists s. split; [exact He|].
    unfold settle. cbn [inflight state console network].
    now rewrite nth_error_snoc, removeNth_snoc.
Qed.

(** After [selectArticle], whatever the state before: the term, the
    result list and the has-searched flag are untouched, and either no
    article is selected, or one is and the error is clear and loading
    over. *)
Lemma selectArticle_frame title o w :
  let w1 := selectArticle title o w in
  searchTerm (state w1) = searchTerm (state w)
  /\ results (state w1) = results (state w)
  /\ hasSearched (state w1) = hasSearched (state w)
  /\ (selectedArticle (state w1) = None
      \/ (exists a, selectedArticle (state w1) = Some a)
         /\ error (state w1) = None /\ loading (state w1) = false).
Proof.
  cbv zeta.
  destruct (selectArticle_cases title o w) as [[e [_ ->]] | [s [_ ->]]].
  - cbn. auto.
  - match goal with
    | |- context [run (fetchArticleExtract_settled title o) ?w0] =>
      destruct (fetchArticleExtract_settled_frame title o w0)
        as [_ [_ [Hterm [Hres [Hhas [Hload Hsel]]]]]]
    end.
    rewrite Hterm, Hres, Hhas. cbn [state searchTerm results hasSearched].
    repeat split.
    destruct Hsel as [[a [Ha He]] | [m [_ Ha]]].
    + right. rewrite Ha, He, Hload. cbn. eauto.
    + left. rewrite Ha. reflexivity.
Qed.

(** After [submitSearch] with a term that is not blank, no article is
    selected. *)
Lemma submitSearch_unselects o w :
  trim (searchTerm (state w)) <> [] ->
  selectedArticle (state (submitSearch o w)) = None.
Proof.
  intros H. rewrite (submitSearch_nonblank _ _ H).
  match goal with
  | |- context [run (handleSearch_settled ?t o) ?w0] =>
    destruct (handleSearch_settled_frame t o w0) as [_ [_ [_ [Hsel _]]]]
  end.
  rewrite Hsel. reflexivity.
Qed.

Lemma clearArticle_run w :
  run clearArticle w =
  {| state := {| searchTerm := searchTerm (state w); results := results (state w);
                 loading := loading (state w); error := error (state w);
                 selectedArticle := None; hasSearched := hasSearched (state w) |};
     console := console w; network := network w; inflight := inflight w |}.
Proof. reflexivity. Qed.

(* ----------------------------------------------------------------- *)
(** *** Titles along a run *)

(** The title a result button passes is the [title] of the entry at the
    same place of the result list. *)
Lemma resultButtons_nth l : forall ts i t,
  resultButtons l = Ok ts -> nth_error ts i = Some t ->
  exists r, nth_error l i = Some r /\ getProp r (lit "title") = Ok t.
Proof.
  induction l as [|r l IH]; intros ts i t Hb Hn; simpl in Hb.
  - injection Hb as <-. destruct i; discriminate.
  - destruct (getProp r (lit "pageid")); [|discriminate].
    destruct (getProp r (lit "title")) as [t0|] eqn:Et; [|discriminate].
    destruct (getProp r (lit "snippet")); [|discriminate].
    destruct (resultButtons l) as [ts0|]; [|discriminate].
    injection Hb as <-.
    destruct i as [|i]; simpl in Hn.
    + injection Hn as <-. exists r. now split.
    + destruct (IH ts0 i t eq_refl Hn) as [r' [Hr' Ht']]. exists r'. now split.
Qed.

Lemma click_passes_result_title w i w' :
  step w (ClickResult i) = Some w' ->
  exists l r t, results (state w) = VArr l /\ nth_error l i = Some r
                /\ getProp r (lit "title") = Ok t
                /\ selectedArticle (state w) = None
                /\ w' = run (fetchArticleExtract t) w.
Proof.
  simpl. unfold MemoizedSearchResults.
  destruct (selectedArticle (state w)); [discriminate|].
  destruct (results (state w)) as [| | | | |l| |] eqn:Er; try discriminate.
  destruct (resultButtons l) as [ts|] eqn:Eb; [|discriminate].
  destruct (nth_error ts i) as [t|] eqn:En; [|discriminate].
  intros H. injection H as <-.
  destruct (resultButtons_nth _ _ Eb En) as [r [Hr Ht]].
  exists l, r, t. auto.
Qed.

Lemma searchRequest_no_titles term : param "titles" (searchRequest term) = None.
Proof. reflexivity. Qed.

Lemma extractRequest_titles s : param "titles" (extractRequest s) = Some (toUSVString s).
Proof. reflexivity. Qed.

Lemma noEmptyTitles_snoc w req (nw : list Request) :
  noEmptyTitles w -> param "titles" req <> Some [] ->
  nw = network w ++ [req] ->
  forall r, In r nw -> param "titles" r <> Some [].
Proof.
  intros Hw Hreq -> r Hin. apply in_app_or in Hin. destruct Hin as [Hin|[<-|[]]].
  - now apply Hw.
  - exact Hreq.
Qed.

Lemma step_keeps_titled w ev w' :
  titledWorld w -> step w ev = Some w' -> titledRun [ev] w -> titledWorld w'.
Proof.
  intros [Hres Hnet] Hstep [Hev _].
  destruct ev as [text| |i| |k o].
  - (* typing *)
    simpl in Hstep. injection Hstep as <-. split; [exact Hres | exact Hnet].
  - (* submitting *)
    simpl in Hstep. injection Hstep as <-.
    destruct (list_eq_dec N.eq_dec (trim (searchTerm (state w))) []) as [Hb|Hb].
    + unfold run. rewrite (handleSearch_blank _ Hb). split; [exact Hres | exact Hnet].
    + unfold run. rewrite (handleSearch_start _ Hb). split.
      * cbn. intros l Hl. injection Hl as <-. constructor.
      * unfold noEmptyTitles. cbn [network snd].
        eapply noEmptyTitles_snoc; [exact Hnet | | reflexivity].
        rewrite searchRequest_no_titles. discriminate.
  - (* a result button *)
    destruct (click_passes_result_title _ _ Hstep) as [l [r [t [Hl [Hr [Ht [_ ->]]]]]]].
    destruct (fetchArticleExtract_start_frame t w) as [Hs [_ Hn]].
    split.
    + rewrite Hs. cbn [results]. exact Hres.
    + destruct Hn as [[e [_ [Hn _]]] | [s [Hts [Hn _]]]].
      * unfold noEmptyTitles. rewrite Hn. exact Hnet.
      * unfold noEmptyTitles.
        eapply noEmptyTitles_snoc; [exact Hnet | | exact Hn].
        rewrite extractRequest_titles. intros Hempty.
        injection Hempty as Hempty. apply toUSVString_nil in Hempty. subst s.
        pose proof (Hres l Hl) as Hall.
        unfold titled in Hall. rewrite Forall_forall in Hall.
        apply (Hall r (nth_error_In _ _ Hr) t Ht). exact Hts.
  - (* the close button *)
    simpl in Hstep. destruct (selectedArticle (state w)); [|discriminate].
    injection Hstep as <-. split; [exact Hres | exact Hnet].
  - (* a request settles *)
    simpl in Hstep.
    destruct (nth_error (inflight w) k) as [t|] eqn:Et; [|discriminate].
    injection Hstep as <-. unfold settle. rewrite Et.
    destruct t as [term|title]; cbn [resume].
    + match goal with
      | |- titledWorld (run (handleSearch_settled term o) ?w0) =>
        destruct (handleSearch_settled_frame term o w0) as [Hn [_ [_ [_ [_ [_ Hr]]]]]]
      end.
      split.
      * destruct Hr as [Hr | [data [query [search [Ho [Hq [Hsr Hr]]]]]]];
          rewrite Hr; cbn [state results]; [exact Hres|].
        intros l Hl. apply (Hev data l Ho).
        unfold matchesOf. now rewrite Hq, Hsr, Hl.
      * unfold noEmptyTitles. rewrite Hn. exact Hnet.
    + match goal with
      | |- titledWorld (run (fetchArticleExtract_settled title o) ?w0) =>
        destruct (fetchArticleExtract_settled_frame title o w0) as [Hn [_ [_ [Hr _]]]]
      end.
      split.
      * rewrite Hr. exact Hres.
      * unfold noEmptyTitles. rewrite Hn. exact Hnet.
Qed.

Lemma exec_keeps_titled evs : forall w w',
  titledWorld w -> exec evs w = Some w' -> titledRun evs w -> titledWorld w'.
Proof.
  induction evs as [|ev evs IH]; intros w w' Hw He Hrun; simpl in He.
  - now injection He as <-.
  - destruct (step w ev) as [w1|] eqn:Es; [|discriminate].
    destruct Hrun as [Hev Hrest]. rewrite Es in Hrest.
    apply (IH w1 w'); [|exact He|exact Hrest].
    apply (step_keeps_titled (ev := ev) Hw Es).
    simpl. rewrite Es. split; [exact Hev | exact I].
Qed.
(* ================================================================= *)
(** ** The claims *)

(** C1 (as amended).  When the term is not blank and the response holds
    at least one match and reports no error, [submitSearch] leaves the
    result list equal to the matches of the response, in the order of
    the response and all of them: the controller does not cut the list.
    Error and article are clear, loading is over.  The limit of ten is
    what the request asks the remote for ([srlimit=10]). *)
Theorem search_populates_results w data matches :
  trim (searchTerm (state w)) <> [] ->
  remoteError data = false ->
  matchesOf data = Some matches ->
  matches <> [] ->
  let w' := submitSearch (Responded true (Ok data)) w in
  state w' = {| searchTerm := searchTerm (state w); results := VArr matches;
                loading := false; error := None; selectedArticle := None;
                hasSearched := true |}
  /\ getProp (results (state w')) (lit "length") = Ok (VNum (Z.of_nat (List.length matches)))
  /\ network w' = network w ++ [searchRequest (searchTerm (state w))]
  /\ param "srlimit" (searchRequest (searchTerm (state w))) = Some (lit "10").
Proof.
  intros Hterm Herr Hm Hne w'. subst w'.
  rewrite (submitSearch_nonblank _ _ Hterm).
  rewrite (handleSearch_settled_loaded _ _ _ Herr Hm).
  cbn [state network results searchTerm error selectedArticle hasSearched].
  destruct matches as [|m ms]; [contradiction|].
  repeat split; reflexivity.
Qed.

Lemma search_populates_results_witness :
  let w := run (setSearchTerm (lit "Quantum computing")) initialWorld in
  let matches := [searchResult 25220 "Quantum computing" "a";
                  searchResult 25284 "Qubit" "b";
                  searchResult 25202 "Quantum mechanics" "c"] in
  results (state (submitSearch (Responded true (Ok (searchResponse matches))) w)) = VArr matches.
Proof.
  intros w matches.
  pose proof (@search_populates_results w (searchResponse matches) matches) as H.
  assert (H1 : trim (searchTerm (state w)) <> []) by (vm_compute; discriminate).
  assert (H2 : remoteError (searchResponse matches) = false) by reflexivity.
  assert (H3 : matchesOf (searchResponse matches) = Some matches) by reflexivity.
  assert (H4 : matches <> []) by discriminate.
  destruct (H H1 H2 H3 H4) as [Hs _].
  rewrite Hs. reflexivity.
Defined.

(** C1 (as worded, refuted).  A response with eleven matches leaves eleven
    results, not ten. *)
Lemma search_results_not_capped :
  ~ (forall w data matches,
        trim (searchTerm (state w)) <> [] ->
        remoteError data = false ->
        matchesOf data = Some matches ->
        matches <> [] ->
        exists l,
          results (state (submitSearch (Responded true (Ok data)) w)) = VArr l
          /\ List.length l = Nat.min (List.length matches) 10).
Proof.
  intros H.
  destruct (H (run (setSearchTerm (lit "Moon")) initialWorld)
              (searchResponse elevenMatches) elevenMatches) as [l [Hl Hlen]].
  - vm_compute. discriminate.
  - reflexivity.
  - reflexivity.
  - discriminate.
  - vm_compute in Hl. injection Hl as <-. vm_compute in Hlen. discriminate.
Qed.

(** C2 (as amended).  When the page entry of the response has a non-empty
    extract, [selectArticle] leaves the controller viewing an article
    whose content is that extract, unchanged, and whose URL is the
    canonical article path followed by the percent-encoded title of the
    page entry of the response, which need not be the requested title. *)
Theorem select_views_article (requested : jsstring) data page extract pageTitle enc w :
  pageOf data = Ok page ->
  extractOf page = Ok (VStr extract) ->
  extract <> [] ->
  getProp page (lit "title") = Ok (VStr pageTitle) ->
  encodeURIComponent pageTitle = Some enc ->
  state (selectArticle (VStr requested) (Responded true (Ok data)) w) =
  {| searchTerm := searchTerm (state w); results := results (state w);
     loading := false; error := None;
     selectedArticle := Some {| title := VStr pageTitle;
                                content := VStr extract;
                                url := lit "https://en.wikipedia.org/wiki/" ++ enc |};
     hasSearched := hasSearched (state w) |}.
Proof.
  intros Hp He Hne Ht Henc.
  assert (Htruthy : truthy (VStr extract) = true)
    by (destruct extract; [contradiction | reflexivity]).
  assert (Hurl : encodeURIComponentOf (VStr pageTitle) = Ok enc)
    by (unfold encodeURIComponentOf; cbn [toString]; now rewrite Henc).
  rewrite selectArticle_text.
  rewrite (fetchArticleExtract_settled_viewing (VStr requested) _ _ Hp He Htruthy Ht Hurl).
  reflexivity.
Qed.

Lemma select_views_article_witness :
  let w := submitSearch (Responded true (Ok (searchResponse
             [searchResult 25220 "Quantum computing" "a"; searchResult 25284 "Qubit" "b"])))
             (run (setSearchTerm (lit "Quantum computing")) initialWorld) in
  option_map url
    (selectedArticle (state (selectArticle (str "Quantum computing")
       (Responded true (Ok (extractResponse 25220 "Quantum computing" "Quantum computing is...")))
       w)))
  = Some (lit "https://en.wikipedia.org/wiki/Quantum%20computing").
Proof.
  intros w. unfold str.
  rewrite (@select_views_article (lit "Quantum computing")
             (extractResponse 25220 "Quantum computing" "Quantum computing is...")
             (VObj [(lit "pageid", VNum 25220); (lit "ns", VNum 0);
                    (lit "title", str "Quantum computing");
                    (lit "extract", str "Quantum computing is...")])
             (lit "Quantum computing is...") (lit "Quantum computing")
             (lit "Quantum%20computing") w).
  - reflexivity.
  - reflexivity.
  - reflexivity.
  - discriminate.
  - reflexivity.
  - reflexivity.
Defined.

(** C2 (as worded, refuted).  The URL is not built from the requested
    title: asked for "quantum computing", the remote answers with the
    page "Quantum computing", and the URL names the latter. *)
Lemma article_url_not_from_requested_title :
  ~ (forall (requested : jsstring) data page extract w,
        pageOf data = Ok page ->
        extractOf page = Ok (VStr extract) ->
        extract <> [] ->
        exists a enc,
          selectedArticle (state (selectArticle (VStr requested) (Responded true (Ok data)) w)) = Some a
          /\ encodeURIComponent requested = Some enc
          /\ url a = lit "https://en.wikipedia.org/wiki/" ++ enc
          /\ content a = VStr extract).
Proof.
  intros H.
  destruct (H (lit "quantum computing")
              (extractResponse 25220 "Quantum computing" "Quantum computing is...")
              (VObj [(lit "pageid", VNum 25220); (lit "ns", VNum 0);
                     (lit "title", str "Quantum computing");
                     (lit "extract", str "Quantum computing is...")])
              (lit "Quantum computing is...") initialWorld)
    as [a [enc [Ha [Henc [Hurl _]]]]].
  - reflexivity.
  - reflexivity.
  - discriminate.
  - vm_compute in Ha. injection Ha as <-.
    vm_compute in Henc. injection Henc as <-.
    vm_compute in Hurl. discriminate.
Qed.

(** C3.  A search with a term that is not blank clears the error, the
    selected article and the result list in its starting part, whatever
    the state was: they are clear while the new request is still waiting
    to settle. *)
Theorem search_clears_before_settling w :
  trim (searchTerm (state w)) <> [] ->
  let w1 := run handleSearch w in
  error (state w1) = None
  /\ selectedArticle (state w1) = None
  /\ results (state w1) = VArr []
  /\ loading (state w1) = true
  /\ hasSearched (state w1) = true
  /\ network w1 = network w ++ [searchRequest (searchTerm (state w))]
  /\ inflight w1 = inflight w ++ [SearchTask (searchTerm (state w))]
  /\ param "srlimit" (searchRequest (searchTerm (state w))) = Some (lit "10").
Proof.
  intros H w1. subst w1. unfold run. rewrite (handleSearch_start _ H).
  repeat split; reflexivity.
Qed.

Lemma search_clears_before_settling_witness :
  let w := selectArticle (str "Qubit") (Responded true (Ok (missingResponse "Qubit")))
             (submitSearch (Responded true (Ok (searchResponse [searchResult 25284 "Qubit" "b"])))
                (run (setSearchTerm (lit "Qubit")) initialWorld)) in
  error (state w) <> None
  /\ results (state w) <> VArr []
  /\ error (state (run handleSearch w)) = None
  /\ results (state (run handleSearch w)) = VArr [].
Proof.
  intros w.
  assert (H : trim (searchTerm (state w)) <> []) by (vm_compute; discriminate).
  destruct (search_clears_before_settling w H) as [He [_ [Hr _]]].
  split; [vm_compute; discriminate|].
  split; [vm_compute; discriminate|].
  split; [exact He | exact Hr].
Defined.

(** C4.  When the term is not blank and the response holds no match,
    [submitSearch] leaves the controller in error with a message that
    contains the searched term as it was typed. *)
Theorem search_without_matches_names_term w data :
  trim (searchTerm (state w)) <> [] ->
  remoteError data = false ->
  matchesOf data = Some [] ->
  let w' := submitSearch (Responded true (Ok data)) w in
  error (state w') = Some (noResultsMessage (searchTerm (state w)))
  /\ contains (noResultsMessage (searchTerm (state w))) (searchTerm (state w))
  /\ results (state w') = VArr []
  /\ selectedArticle (state w') = None
  /\ loading (state w') = false.
Proof.
  intros Hterm Herr Hm w'. subst w'.
  rewrite (submitSearch_nonblank _ _ Hterm).
  rewrite (handleSearch_settled_loaded _ _ _ Herr Hm).
  cbn [state results error selectedArticle loading].
  repeat split; try reflexivity.
  exists (lit "No results found for " ++ dquote), dquote.
  unfold noResultsMessage. now rewrite <- app_assoc.
Qed.

Lemma search_without_matches_names_term_witness :
  error (state (submitSearch (Responded true (Ok (searchResponse [])))
                  (run (setSearchTerm (lit "zzyzx qq")) initialWorld)))
  = Some (lit "No results found for " ++ dquote ++ lit "zzyzx qq" ++ dquote).
Proof.
  pose proof (@search_without_matches_names_term
                (run (setSearchTerm (lit "zzyzx qq")) initialWorld) (searchResponse [])) as H.
  destruct H as [He _].
  - vm_compute. discriminate.
  - reflexivity.
  - reflexivity.
  - rewrite He. reflexivity.
Defined.

(** C5.  When the page entry of the response is missing or has a missing
    or empty extract, [selectArticle] leaves the controller in error with
    a message that names the requested title, and no article selected. *)
Theorem select_without_extract_names_title (requested : jsstring) data page extract w :
  pageOf data = Ok page ->
  extractOf page = Ok extract ->
  truthy extract = false ->
  let w' := selectArticle (VStr requested) (Responded true (Ok data)) w in
  error (state w') = Some (noExtractMessage requested)
  /\ contains (noExtractMessage requested) requested
  /\ selectedArticle (state w') = None
  /\ loading (state w') = false
  /\ results (state w') = results (state w).
Proof.
  intros Hp He Ht w'. subst w'.
  rewrite selectArticle_text.
  rewrite (fetchArticleExtract_settled_missing (VStr requested) _ _ Hp He Ht (t := requested))
    by reflexivity.
  cbn [state results error selectedArticle loading].
  repeat split; try reflexivity.
  apply contains_middle.
Qed.

Lemma select_without_extract_names_title_witness :
  error (state (selectArticle (str "Qubit") (Responded true (Ok (missingResponse "Qubit")))
                  initialWorld))
  = Some (lit "Could not retrieve full article content for Qubit.").
Proof.
  pose proof (@select_without_extract_names_title (lit "Qubit") (missingResponse "Qubit")
                (VObj [(lit "title", str "Qubit"); (lit "ns", VNum 0); (lit "missing", VBool true)])
                VUndefined initialWorld) as H.
  destruct H as [He _].
  - reflexivity.
  - reflexivity.
  - reflexivity.
  - unfold str. rewrite He. reflexivity.
Defined.

(** C7.  With an empty or blank term [handleSearch] returns at once: the
    state, the console, the requests issued and the waiting handlers are
    what they were. *)
Theorem blank_search_is_noop w o :
  trim (searchTerm (state w)) = [] ->
  run handleSearch w = w
  /\ submitSearch o w = w
  /\ step w Submit = Some w.
Proof.
  intros H.
  assert (Hr : run handleSearch w = w)
    by (unfold run; now rewrite (handleSearch_blank _ H)).
  repeat split.
  - exact Hr.
  - now apply submitSearch_blank.
  - simpl. now rewrite Hr.
Qed.

Lemma blank_search_is_noop_witness :
  let w := run (setSearchTerm (lit "   ")) initialWorld in
  run handleSearch w = w /\ network (run handleSearch w) = [].
Proof.
  intros w.
  assert (H : trim (searchTerm (state w)) = []) by reflexivity.
  destruct (blank_search_is_noop w (Rejected TypeError) H) as [Hr _].
  split; [exact Hr | rewrite Hr; reflexivity].
Defined.

(** C6 (as amended).  [dismissArticle] is unconditional, clears the
    selected article and nothing else, and issues no request.  After a
    [selectArticle] that selected an article, it leaves the term, the
    result list and the has-searched flag as they were before that
    [selectArticle], with no article, no error and loading over: an error
    shown before the selection is not brought back. *)
Theorem dismiss_after_select title o w :
  let w1 := selectArticle title o w in
  let w2 := dismissArticle w1 in
  (state w2 = {| searchTerm := searchTerm (state w1); results := results (state w1);
                 loading := loading (state w1); error := error (state w1);
                 selectedArticle := None; hasSearched := hasSearched (state w1) |}
   /\ console w2 = console w1 /\ network w2 = network w1 /\ inflight w2 = inflight w1)
  /\ (selectedArticle (state w1) <> None ->
      state w2 = {| searchTerm := searchTerm (state w); results := results (state w);
                    loading := false; error := None;
                    selectedArticle := None; hasSearched := hasSearched (state w) |}).
Proof.
  intros w1 w2. subst w2. unfold dismissArticle. rewrite clearArticle_run.
  cbn [state console network inflight].
  split; [repeat split|].
  intros Hsel.
  destruct (selectArticle_frame title o w) as [Hterm [Hres [Hhas Hcase]]].
  fold w1 in Hterm, Hres, Hhas, Hcase.
  destruct Hcase as [Hnone | [_ [Herr Hload]]]; [contradiction|].
  now rewrite Hterm, Hres, Hhas, Herr, Hload.
Qed.

Lemma dismiss_after_select_witness :
  let w := submitSearch (Responded true (Ok (searchResponse
             [searchResult 25220 "Quantum computing" "a"; searchResult 25284 "Qubit" "b";
              searchResult 25202 "Quantum mechanics" "c"])))
             (run (setSearchTerm (lit "Quantum computing")) initialWorld) in
  let w1 := selectArticle (str "Quantum computing")
              (Responded true (Ok (extractResponse 25220 "Quantum computing" "Quantum computing is...")))
              w in
  state (dismissArticle w1) = state w /\ network (dismissArticle w1) = network w1.
Proof.
  intros w w1.
  destruct (dismiss_after_select (str "Quantum computing")
              (Responded true (Ok (extractResponse 25220 "Quantum computing" "Quantum computing is...")))
              w) as [[_ [_ [Hn _]]] Hback].
  split; [|exact Hn].
  fold w1 in Hback. rewrite Hback; [vm_compute; reflexivity|].
  vm_compute. discriminate.
Defined.

(** C6 (as worded, refuted).  The user searches, opens the first result,
    whose extract is missing, so that an error is shown above the result
    list, then opens the second result and closes it: the error shown
    before that selection is gone. *)
Lemma dismiss_does_not_restore_error :
  ~ (forall w titles title o,
        reachable w ->
        inflight w = [] ->
        selectedArticle (state w) = None ->
        MemoizedSearchResults (state w) = Ok titles ->
        In title titles ->
        selectedArticle (state (selectArticle title o w)) <> None ->
        state (dismissArticle (selectArticle title o w)) = state w).
Proof.
  intros H.
  pose (found := Responded true (Ok (searchResponse
                   [searchResult 25284 "Qubit" "a"; searchResult 25220 "Quantum computing" "b"]))).
  pose (evs := [Typed (lit "Qubit"); Submit; Settle 0 found;
                ClickResult 0; Settle 0 (Responded true (Ok (missingResponse "Qubit")))]).
  pose (w := match exec evs initialWorld with Some w => w | None => initialWorld end).
  pose (o := Responded true
               (Ok (extractResponse 25220 "Quantum computing" "Quantum computing is..."))).
  assert (Hreach : reachable w) by (exists evs; vm_compute; reflexivity).
  assert (Hidle : inflight w = []) by (vm_compute; reflexivity).
  assert (Hnone : selectedArticle (state w) = None) by (vm_compute; reflexivity).
  assert (Hbuttons : MemoizedSearchResults (state w) = Ok [str "Qubit"; str "Quantum computing"])
    by (vm_compute; reflexivity).
  assert (Hsel : selectedArticle (state (selectArticle (str "Quantum computing") o w)) <> None)
    by (vm_compute; discriminate).
  specialize (H w [str "Qubit"; str "Quantum computing"] (str "Quantum computing") o
                Hreach Hidle Hnone Hbuttons (or_intror (or_introl eq_refl)) Hsel).
  apply (f_equal error) in H. vm_compute in H. discriminate.
Qed.

(** A transport failure, a status that is not a success, or an unreadable
    body during a search ends in the generic search message, with the
    failure itself on the console. *)
Lemma search_failure_is_generic o e w :
  trim (searchTerm (state w)) <> [] ->
  failureOf o = Some e ->
  let w' := submitSearch o w in
  error (state w') = Some searchFailedMessage
  /\ console w' = console w ++ [(lit "Search error:", e)]
  /\ selectedArticle (state w') = None
  /\ loading (state w') = false.
Proof.
  intros Hterm Hf w'. subst w'.
  rewrite (submitSearch_nonblank _ _ Hterm).
  rewrite (handleSearch_settled_failed _ _ _ Hf).
  repeat split.
Qed.

(** An error payload in a search response ends the same way; the console
    gets the [Error] built from the payload's [info]. *)
Lemma search_reported_error_is_generic data w :
  trim (searchTerm (state w)) <> [] ->
  remoteError data = true ->
  let w' := submitSearch (Responded true (Ok data)) w in
  error (state w') = Some searchFailedMessage
  /\ selectedArticle (state w') = None
  /\ loading (state w') = false
  /\ exists e, console w' = console w ++ [(lit "Search error:", e)]
               /\ (forall info, errorInfo data = Some info -> e = Error info).
Proof.
  intros Hterm Hr w'. subst w'.
  rewrite (submitSearch_nonblank _ _ Hterm).
  match goal with
  | |- context [run (handleSearch_settled ?t _) ?w0] =>
    destruct (handleSearch_settled_reported t data w0 Hr) as [e [-> He]]
  end.
  repeat split. exists e. split; [reflexivity | exact He].
Qed.

(** A transport failure, a status that is not a success, or an unreadable
    body while fetching an article ends in the generic article message,
    with the failure itself on the console. *)
Lemma article_failure_is_generic (requested : jsstring) o e w :
  failureOf o = Some e ->
  let w' := selectArticle (VStr requested) o w in
  error (state w') = Some articleFailedMessage
  /\ console w' = console w ++ [(lit "Article fetch error:", e)]
  /\ selectedArticle (state w') = None
  /\ loading (state w') = false.
Proof.
  intros Hf w'. subst w'.
  rewrite selectArticle_text.
  rewrite (fetchArticleExtract_settled_failed _ _ _ Hf).
  repeat split.
Qed.

(** C8 (the code where it departs from the claim).  [fetchArticleExtract]
    does not look at [data.error], which [handleSearch] does.  An error
    payload in answer to an article request is therefore taken for a
    missing extract: the message names the title, it is not the generic
    one, and nothing reaches the console.  The same payload in answer to
    a search gives the generic message and a console entry. *)
Theorem article_error_payload_not_logged :
  let o := Responded true (Ok (errorResponse "invalidtitle" "Bad title")) in
  let w := selectArticle (str "Foo|bar") o initialWorld in
  let w' := submitSearch o (run (setSearchTerm (lit "Foo|bar")) initialWorld) in
  (error (state w) = Some (lit "Could not retrieve full article content for Foo|bar.")
   /\ error (state w) <> Some articleFailedMessage
   /\ console w = [])
  /\ (error (state w') = Some searchFailedMessage
      /\ console w' = [(lit "Search error:", Error (lit "Bad title"))]).
Proof.
  cbv zeta. split; [split; [|split]|split].
  - reflexivity.
  - vm_compute. discriminate.
  - reflexivity.
  - reflexivity.
  - reflexivity.
Qed.

(** Error and selected article are not both set after [perform], if they
    were not both set before. *)
Lemma perform_keeps_exclusive op w :
  exclusive (state w) -> exclusive (state (perform op w)).
Proof.
  intros Hw. destruct op as [o|title o|]; simpl.
  - destruct (list_eq_dec N.eq_dec (trim (searchTerm (state w))) []) as [Hb|Hb].
    + now rewrite (submitSearch_blank _ _ Hb).
    + right. now apply submitSearch_unselects.
  - destruct (selectArticle_frame title o w) as [_ [_ [_ [Hn | [_ [He _]]]]]].
    + now right.
    + now left.
  - now right.
Qed.


(** Used one operation at a time from the initial state, the controller
    never has error and selected article both set. *)
Lemma operations_keep_exclusive ops :
  exclusive (state (performAll ops initialWorld)).
Proof.
  unfold performAll.
  assert (H : exclusive (state initialWorld)) by (now left).
  revert H. generalize initialWorld.
  induction ops as [|op ops IH]; intros w Hw; simpl; [exact Hw|].
  apply IH. now apply perform_keeps_exclusive.
Qed.


(** C9 (as amended).  The controller has no check on the title of its
    own: an extract request is started only by the button of a listed
    result, with the title of that result.  Along every run in which the
    remote delivers only results whose titles are not empty, no request
    goes out with an empty [titles]. *)
Theorem extract_requests_carry_result_titles evs w :
  exec evs initialWorld = Some w ->
  titledRun evs initialWorld ->
  forall req, In req (network w) -> param "titles" req <> Some [].
Proof.
  intros He Hrun.
  assert (H0 : titledWorld initialWorld).
  { split.
    - intros l Hl. injection Hl as <-. constructor.
    - intros req []. }
  exact (proj2 (exec_keeps_titled evs H0 He Hrun)).
Qed.

Lemma extract_requests_carry_result_titles_witness :
  let found := Responded true (Ok (searchResponse
                 [searchResult 25284 "Qubit" "a"; searchResult 25220 "Quantum computing" "b"])) in
  let evs := [Typed (lit "Qubit"); Submit; Settle 0 found; ClickResult 1] in
  exists w, exec evs initialWorld = Some w
            /\ network w = [searchRequest (lit "Qubit"); extractRequest (lit "Quantum computing")]
            /\ forall req, In req (network w) -> param "titles" req <> Some [].
Proof.
  intros found evs.
  pose (w := match exec evs initialWorld with Some w => w | None => initialWorld end).
  assert (He : exec evs initialWorld = Some w) by (vm_compute; reflexivity).
  exists w. split; [exact He|]. split; [vm_compute; reflexivity|].
  apply (extract_requests_carry_result_titles evs He).
  simpl. repeat split.
  intros data l Hd Hl. injection Hd as <-. vm_compute in Hl. injection Hl as <-.
  repeat constructor; intros t Ht; vm_compute in Ht; injection Ht as <-;
    vm_compute; discriminate.
Defined.

(** C9 (as worded, refuted).  The remote answers a search with a result
    whose title is empty; its button is in the tree, and clicking it
    sends an extract request with an empty [titles]. *)
Lemma empty_title_request_reachable :
  ~ (forall evs w,
        exec evs initialWorld = Some w ->
        forall req, In req (network w) -> param "titles" req <> Some []).
Proof.
  intros H.
  pose (found := Responded true (Ok (searchResponse [searchResult 1 "" "a"]))).
  pose (evs := [Typed (lit "Qubit"); Submit; Settle 0 found; ClickResult 0]).
  pose (w := match exec evs initialWorld with Some w => w | None => initialWorld end).
  assert (He : exec evs initialWorld = Some w) by (vm_compute; reflexivity).
  assert (Hin : In (extractRequest []) (network w)) by (vm_compute; auto).
  apply (H evs w He (extractRequest []) Hin).
  vm_compute. reflexivity.
Qed.

(* ================================================================= *)
(** ** Further properties of the handlers *)

(** What the starting part of [handleSearch] does, blank or not. *)
Lemma handleSearch_run_cases w :
  (trim (searchTerm (state w)) = [] /\ run handleSearch w = w)
  \/ (trim (searchTerm (state w)) <> []
      /\ run handleSearch w =
         {| state := {| searchTerm := searchTerm (state w); results := VArr [];
                        loading := true; error := None; selectedArticle := None;
                        hasSearched := true |};
            console := console w;
            network := network w ++ [searchRequest (searchTerm (state w))];
            inflight := inflight w ++ [SearchTask (searchTerm (state w))] |}).
Proof.
  unfold run.
  destruct (list_eq_dec N.eq_dec (trim (searchTerm (state w))) []) as [Hb|Hb].
  - left. split; [exact Hb|]. now rewrite (handleSearch_blank _ Hb).
  - right. split; [exact Hb|]. now rewrite (handleSearch_start _ Hb).
Qed.

(** A term is blank exactly when all its characters are white space. *)
Lemma trimStart_nil s : trimStart s = [] <-> forallb isWhiteSpace s = true.
Proof.
  induction s as [|c s IH]; simpl; [tauto|].
  destruct (isWhiteSpace c); simpl; [exact IH|]. split; discriminate.
Qed.

Lemma trimStart_suffix s : exists pre, s = pre ++ trimStart s /\ forallb isWhiteSpace pre = true.
Proof.
  induction s as [|c s [pre [Hs Hp]]]; simpl.
  - now exists [].
  - destruct (isWhiteSpace c) eqn:E.
    + exists (c :: pre). simpl. rewrite E, Hp. split; [now f_equal | reflexivity].
    + now exists [].
Qed.

Lemma forallb_rev {A} (f : A -> bool) l : forallb f (rev l) = forallb f l.
Proof.
  induction l as [|a l IH]; simpl; [reflexivity|].
  rewrite forallb_app, IH. simpl. rewrite andb_true_r. apply andb_comm.
Qed.

Lemma trim_nil s : trim s = [] <-> forallb isWhiteSpace s = true.
Proof.
  unfold trim, trimEnd. split.
  - intros H.
    assert (H1 : trimStart (rev (trimStart s)) = [])
      by (destruct (trimStart (rev (trimStart s))); [reflexivity|];
          simpl in H; now apply app_eq_nil in H as [_ H]).
    apply trimStart_nil in H1. rewrite forallb_rev in H1.
    destruct (trimStart_suffix s) as [pre [Hs Hp]].
    rewrite Hs, forallb_app, Hp, H1. reflexivity.
  - intros H. apply trimStart_nil in H. rewrite H. reflexivity.
Qed.

Lemma existsb_negb_forallb {A} (f : A -> bool) l :
  existsb (fun x => negb (f x)) l = negb (forallb f l).
Proof.
  induction l as [|a l IH]; simpl; [reflexivity|].
  rewrite IH. now destruct (f a).
Qed.

(** X1.  [handleSearch] sends a request exactly when the term holds a
    character that is not white space; the request then carries the term
    as typed, surrounding blanks included.  Otherwise nothing changes. *)
Theorem search_sent_iff_not_blank w :
  let term := searchTerm (state w) in
  if existsb (fun c => negb (isWhiteSpace c)) term
  then network (run handleSearch w) = network w ++ [searchRequest term]
       /\ param "srsearch" (searchRequest term) = Some (toUSVString term)
       /\ inflight (run handleSearch w) = inflight w ++ [SearchTask term]
  else run handleSearch w = w.
Proof.
  intros term. rewrite existsb_negb_forallb.
  destruct (forallb isWhiteSpace term) eqn:E; simpl.
  - apply trim_nil in E.
    destruct (handleSearch_run_cases w) as [[_ H]|[H _]]; [exact H | contradiction].
  - destruct (handleSearch_run_cases w) as [[H _]|[_ H]].
    + apply trim_nil in H. fold term in H. congruence.
    + rewrite H. repeat split.
Qed.

(* ----------------------------------------------------------------- *)
(** *** One event at a time *)

(** What an event does to the list of requests. *)
Lemma step_network w ev w' :
  step w ev = Some w' ->
  network w' = network w
  \/ (ev = Submit /\ trim (searchTerm (state w)) <> []
      /\ network w' = network w ++ [searchRequest (searchTerm (state w))])
  \/ (exists i t s, ev = ClickResult i /\ toString t = Ok s
                    /\ network w' = network w ++ [extractRequest s]).
Proof.
  intros Hstep. destruct ev as [text| |i| |k o]; simpl in Hstep.
  - injection Hstep as <-. now left.
  - injection Hstep as <-.
    destruct (handleSearch_run_cases w) as [[_ ->]|[Hb ->]]; [now left|].
    right. left. auto.
  - destruct (click_passes_result_title _ _ Hstep) as [l [r [t [_ [_ [_ [_ ->]]]]]]].
    destruct (fetchArticleExtract_start_frame t w) as [_ [_ [[e [_ [Hn _]]]|[s [Hs [Hn _]]]]]].
    + now left.
    + right. right. exists i, t, s. auto.
  - destruct (selectedArticle (state w)); [|discriminate].
    injection Hstep as <-. now left.
  - destruct (nth_error (inflight w) k) as [t|] eqn:Et; [|discriminate].
    injection Hstep as <-. unfold settle. rewrite Et. left.
    destruct t as [term|title]; cbn [resume].
    + match goal with
      | |- network (run (handleSearch_settled term o) ?w0) = _ =>
        now destruct (handleSearch_settled_frame term o w0) as [-> _]
      end.
    + match goal with
      | |- network (run (fetchArticleExtract_settled title o) ?w0) = _ =>
        now destruct (fetchArticleExtract_settled_frame title o w0) as [-> _]
      end.
Qed.

Lemma searchRequest_known_params term :
  endpoint (searchRequest term) = WIKI_API_BASE
  /\ param "action" (searchRequest term) = Some (lit "query")
  /\ param "format" (searchRequest term) = Some (lit "json")
  /\ param "origin" (searchRequest term) = Some (lit "*").
Proof. repeat split. Qed.

Lemma extractRequest_known_params t :
  endpoint (extractRequest t) = WIKI_API_BASE
  /\ param "action" (extractRequest t) = Some (lit "query")
  /\ param "format" (extractRequest t) = Some (lit "json")
  /\ param "origin" (extractRequest t) = Some (lit "*").
Proof. repeat split. Qed.

Lemma exec_known_requests evs : forall w w',
  Forall knownRequest (network w) -> exec evs w = Some w' ->
  Forall knownRequest (network w').
Proof.
  induction evs as [|ev evs IH]; intros w w' Hw He; simpl in He.
  - now injection He as <-.
  - destruct (step w ev) as [w1|] eqn:Es; [|discriminate].
    apply (IH w1 w'); [|exact He].
    destruct (step_network _ _ Es) as [->|[[_ [Hb ->]]|[i [t [s [_ [_ ->]]]]]]].
    + exact Hw.
    + apply Forall_app. split; [exact Hw|]. constructor; [|constructor].
      left. eauto.
    + apply Forall_app. split; [exact Hw|]. constructor; [|constructor].
      right. eauto.
Qed.

(** X2.  Along every run, each request the component has sent is one of
    its two kinds: a search for a term that is not blank, asking for at
    most ten matches, or an extract request for the introduction in plain
    text.  All go to the one API base and ask for JSON with [origin=*]. *)
Theorem requests_are_of_two_kinds evs w req :
  exec evs initialWorld = Some w ->
  In req (network w) ->
  (endpoint req = WIKI_API_BASE
   /\ param "action" req = Some (lit "query")
   /\ param "format" req = Some (lit "json")
   /\ param "origin" req = Some (lit "*"))
  /\ ((exists term, trim term <> [] /\ req = searchRequest term
                    /\ param "list" req = Some (lit "search")
                    /\ param "srlimit" req = Some (lit "10"))
      \/ (exists t, req = extractRequest t
                    /\ param "prop" req = Some (lit "extracts")
                    /\ param "explaintext" req = Some (lit "true")
                    /\ param "exintro" req = Some (lit "true")
                    /\ param "exlimit" req = Some (lit "1")
                    /\ param "formatversion" req = Some (lit "2"))).
Proof.
  intros He Hin.
  assert (Hall : Forall knownRequest (network w))
    by (apply (@exec_known_requests evs initialWorld w); [constructor | exact He]).
  rewrite Forall_forall in Hall.
  destruct (Hall req Hin) as [[term [Hb ->]]|[t ->]].
  - split; [apply searchRequest_known_params|].
    left. exists term. repeat split. exact Hb.
  - split; [apply extractRequest_known_params|].
    right. exists t. repeat split.
Qed.

Lemma requests_are_of_two_kinds_witness :
  let found := Responded true (Ok (searchResponse
                 [searchResult 25284 "Qubit" "a"; searchResult 25220 "Quantum computing" "b"])) in
  let evs := [Typed (lit "Qubit"); Submit; Settle 0 found; ClickResult 1] in
  exists w, exec evs initialWorld = Some w
            /\ endpoint (extractRequest (lit "Quantum computing")) = WIKI_API_BASE.
Proof.
  intros found evs.
  pose (w := match exec evs initialWorld with Some w => w | None => initialWorld end).
  assert (He : exec evs initialWorld = Some w) by (vm_compute; reflexivity).
  assert (Hin : In (extractRequest (lit "Quantum computing")) (network w))
    by (vm_compute; auto).
  exists w. split; [exact He|].
  exact (proj1 (proj1 (@requests_are_of_two_kinds evs w _ He Hin))).
Defined.

(** X3.  When a request settles, however it settles, no new request goes
    out (a failure is not retried), the handler that waited for it is
    gone, and the loading flag is off, also when other requests are
    still waiting. *)
Theorem settling_is_final w k o w' :
  step w (Settle k o) = Some w' ->
  network w' = network w
  /\ inflight w' = removeNth k (inflight w)
  /\ loading (state w') = false.
Proof.
  simpl. destruct (nth_error (inflight w) k) as [t|] eqn:Et; [|discriminate].
  intros H. injection H as <-. unfold settle. rewrite Et.
  destruct t as [term|title]; cbn [resume].
  - match goal with
    | |- context [run (handleSearch_settled term o) ?w0] =>
      destruct (handleSearch_settled_frame term o w0) as [-> [-> [_ [_ [_ [-> _]]]]]]
    end.
    repeat split.
  - match goal with
    | |- context [run (fetchArticleExtract_settled title o) ?w0] =>
      destruct (fetchArticleExtract_settled_frame title o w0) as [-> [-> [_ [_ [_ [-> _]]]]]]
    end.
    repeat split.
Qed.

Lemma settling_is_final_witness :
  let found := Responded true (Ok (searchResponse
                 [searchResult 25284 "Qubit" "a"; searchResult 25220 "Quantum computing" "b"])) in
  let evs := [Typed (lit "Qubit"); Submit; Settle 0 found; ClickResult 0; ClickResult 1] in
  exists w w',
    exec evs initialWorld = Some w
    /\ step w (Settle 0 (Rejected (HostFailure (lit "Failed to fetch")))) = Some w'
    /\ loading (state w') = false
    /\ inflight w' = [ArticleTask (str "Quantum computing")].
Proof.
  intros found evs.
  pose (w := match exec evs initialWorld with Some w => w | None => initialWorld end).
  pose (o := Rejected (HostFailure (lit "Failed to fetch"))).
  pose (w' := match step w (Settle 0 o) with Some w' => w' | None => w end).
  assert (He : exec evs initialWorld = Some w) by (vm_compute; reflexivity).
  assert (Hs : step w (Settle 0 o) = Some w') by (vm_compute; reflexivity).
  exists w, w'. split; [exact He|]. split; [exact Hs|].
  destruct (settling_is_final w 0 o Hs) as [_ [Hi Hl]].
  split; [exact Hl|]. rewrite Hi. vm_compute. reflexivity.
Defined.

(** What an event does to the term and to the has-searched flag. *)
Lemma step_term_and_flag w ev w' :
  step w ev = Some w' ->
  searchTerm (state w') = match ev with
                          | Typed text => text
                          | _ => searchTerm (state w)
                          end
  /\ (hasSearched (state w) = true -> hasSearched (state w') = true).
Proof.
  intros Hstep. destruct ev as [text| |i| |k o]; simpl in Hstep.
  - injection Hstep as <-. split; [reflexivity | auto].
  - injection Hstep as <-.
    destruct (handleSearch_run_cases w) as [[_ ->]|[_ ->]]; split; auto.
  - destruct (click_passes_result_title _ _ Hstep) as [l [r [t [_ [_ [_ [_ ->]]]]]]].
    destruct (fetchArticleExtract_start_frame t w) as [-> _]. split; auto.
  - destruct (selectedArticle (state w)); [|discriminate].
    injection Hstep as <-. split; auto.
  - destruct (nth_error (inflight w) k) as [t|] eqn:Et; [|discriminate].
    injection Hstep as <-. unfold settle. rewrite Et.
    destruct t as [term|title]; cbn [resume].
    + match goal with
      | |- context [run (handleSearch_settled term o) ?w0] =>
        destruct (handleSearch_settled_frame term o w0) as [_ [_ [-> [_ [-> _]]]]]
      end.
      split; auto.
    + match goal with
      | |- context [run (fetchArticleExtract_settled title o) ?w0] =>
        destruct (fetchArticleExtract_settled_frame title o w0) as [_ [_ [-> [_ [-> _]]]]]
      end.
      split; auto.
Qed.

(** X4.  No handler writes the search term: along a run in which the
    user does not type, the term in the input stays what it was, through
    searches, selections, dismissals and responses. *)
Theorem term_changes_only_by_typing evs : forall w w',
  exec evs w = Some w' ->
  noTyping evs ->
  searchTerm (state w') = searchTerm (state w).
Proof.
  induction evs as [|ev evs IH]; intros w w' He Hn; simpl in He.
  - now injection He as <-.
  - destruct (step w ev) as [w1|] eqn:Es; [|discriminate].
    rewrite (IH w1 w' He) by (intros text Hin; apply (Hn text); now right).
    destruct (step_term_and_flag _ _ Es) as [-> _].
    destruct ev; try reflexivity.
    exfalso. apply (Hn text). now left.
Qed.

Lemma term_changes_only_by_typing_witness :
  let found := Responded true (Ok (searchResponse
                 [searchResult 25284 "Qubit" "a"; searchResult 25220 "Quantum computing" "b"])) in
  let w := run (setSearchTerm (lit " Qubit ")) initialWorld in
  let evs := [Submit; Settle 0 found; ClickResult 1;
              Settle 0 (Responded false (Throw TypeError)); Submit] in
  exists w', exec evs w = Some w' /\ searchTerm (state w') = lit " Qubit ".
Proof.
  intros found w evs.
  pose (w' := match exec evs w with Some w' => w' | None => w end).
  assert (He : exec evs w = Some w') by (vm_compute; reflexivity).
  exists w'. split; [exact He|].
  rewrite (@term_changes_only_by_typing evs w w' He); [reflexivity|].
  intros text Hin. simpl in Hin.
  repeat (destruct Hin as [Hin|Hin]; [discriminate|]). exact Hin.
Defined.

(** X5.  The has-searched flag is never reset: once a search has been
    started it stays on along every run, whatever the searches return. *)
Theorem hasSearched_stays_on evs : forall w w',
  exec evs w = Some w' ->
  hasSearched (state w) = true ->
  hasSearched (state w') = true.
Proof.
  induction evs as [|ev evs IH]; intros w w' He Hh; simpl in He.
  - now injection He as <-.
  - destruct (step w ev) as [w1|] eqn:Es; [|discriminate].
    apply (IH w1 w' He).
    now apply (step_term_and_flag _ _ Es).
Qed.

Lemma hasSearched_stays_on_witness :
  let w := run handleSearch (run (setSearchTerm (lit "Qubit")) initialWorld) in
  let evs := [Settle 0 (Rejected TypeError); Typed []; Submit] in
  exists w', exec evs w = Some w' /\ hasSearched (state w') = true.
Proof.
  intros w evs.
  pose (w' := match exec evs w with Some w' => w' | None => w end).
  assert (He : exec evs w = Some w') by (vm_compute; reflexivity).
  exists w'. split; [exact He|].
  apply (@hasSearched_stays_on evs w w' He). vm_compute. reflexivity.
Defined.

(* ----------------------------------------------------------------- *)
(** *** Responses that arrive in another order *)

Lemma fetchArticleExtract_settled_article title data a w :
  articleOf data = Some a ->
  run (fetchArticleExtract_settled title (Responded true (Ok data))) w =
  {| state := {| searchTerm := searchTerm (state w); results := results (state w);
                 loading := false; error := error (state w);
                 selectedArticle := Some a;
                 hasSearched := hasSearched (state w) |};
     console := console w; network := network w; inflight := inflight w |}.
Proof.
  unfold articleOf. intros H.
  destruct (pageOf data) as [page|] eqn:Hp; [|discriminate].
  destruct (extractOf page) as [extract|] eqn:He; [|discriminate].
  destruct (truthy extract) eqn:Ht; [|discriminate].
  destruct (getProp page (lit "title")) as [pt|] eqn:Hpt; [|discriminate].
  destruct (encodeURIComponentOf pt) as [enc|] eqn:Henc; [|discriminate].
  injection H as <-.
  now rewrite (fetchArticleExtract_settled_viewing title _ _ Hp He Ht Hpt Henc).
Qed.

(** X6.  Nothing orders the responses.  With two result buttons clicked
    one after the other, the article left on screen is the one whose
    response arrives last: here the first one clicked, whose response
    comes after that of the second. *)
Theorem last_settled_article_wins w titles i j ti tj di dj ai aj :
  inflight w = [] ->
  selectedArticle (state w) = None ->
  MemoizedSearchResults (state w) = Ok titles ->
  nth_error titles i = Some (VStr ti) ->
  nth_error titles j = Some (VStr tj) ->
  articleOf di = Some ai ->
  articleOf dj = Some aj ->
  exists w',
    exec [ClickResult i; ClickResult j;
          Settle 1 (Responded true (Ok dj)); Settle 0 (Responded true (Ok di))] w = Some w'
    /\ selectedArticle (state w') = Some ai
    /\ loading (state w') = false
    /\ inflight w' = []
    /\ network w' = network w ++ [extractRequest ti; extractRequest tj].
Proof.
  intros Hidle Hsel Hbut Hi Hj Hai Haj.
  unfold exec.
  (* the first click *)
  unfold step at 1. rewrite Hsel, Hbut, Hi.
  unfold run at 1. rewrite fetchArticleExtract_start. cbn [snd].
  (* the second click, on the same list *)
  unfold step at 1. cbn [state selectedArticle].
  unfold MemoizedSearchResults in *. cbn [state results]. rewrite Hbut, Hj.
  unfold run at 1. rewrite fetchArticleExtract_start.
  cbn [snd state console network inflight searchTerm results hasSearched].
  rewrite Hidle. cbn [app].
  (* the second response, then the first *)
  unfold step at 1. cbn [inflight nth_error]. unfold settle at 1.
  cbn [inflight nth_error resume removeNth firstn skipn app state console network].
  rewrite (fetchArticleExtract_settled_article _ _ _ Haj).
  unfold step at 1. cbn [inflight nth_error]. unfold settle at 1.
  cbn [inflight nth_error resume removeNth firstn skipn app state console network].
  rewrite (fetchArticleExtract_settled_article _ _ _ Hai).
  eexists. split; [reflexivity|].
  cbn [state selectedArticle loading inflight network]. repeat split.
  now rewrite <- app_assoc.
Qed.

Lemma last_settled_article_wins_witness :
  let w := submitSearch (Responded true (Ok (searchResponse
             [searchResult 25284 "Qubit" "a"; searchResult 25220 "Quantum computing" "b"])))
             (run (setSearchTerm (lit "Qubit")) initialWorld) in
  exists w',
    exec [ClickResult 0; ClickResult 1;
          Settle 1 (Responded true (Ok (extractResponse 25220 "Quantum computing" "Quantum computing is...")));
          Settle 0 (Responded true (Ok (extractResponse 25284 "Qubit" "A qubit is...")))] w = Some w'
    /\ option_map title (selectedArticle (state w')) = Some (str "Qubit").
Proof.
  intros w.
  destruct (@last_settled_article_wins w [str "Qubit"; str "Quantum computing"] 0 1
              (lit "Qubit") (lit "Quantum computing")
              (extractResponse 25284 "Qubit" "A qubit is...")
              (extractResponse 25220 "Quantum computing" "Quantum computing is...")
              {| title := str "Qubit"; content := str "A qubit is...";
                 url := lit "https://en.wikipedia.org/wiki/Qubit" |}
              {| title := str "Quantum computing"; content := str "Quantum computing is...";
                 url := lit "https://en.wikipedia.org/wiki/Quantum%20computing" |})
    as [w' [He [Ha _]]]; try (vm_compute; reflexivity).
  exists w'. split; [exact He|]. rewrite Ha. reflexivity.
Defined.

(* ----------------------------------------------------------------- *)
(** *** What reaches the console *)

Lemma handleSearch_settled_log term o w :
  let w' := run (handleSearch_settled term o) w in
  (console w' = console w
   /\ (error (state w') = error (state w)
       \/ error (state w') = Some (noResultsMessage term)))
  \/ (exists e, console w' = console w ++ [(lit "Search error:", e)]
                /\ error (state w') = Some searchFailedMessage).
Proof.
  unfold handleSearch_settled. cbv zeta.
  destruct o as [e|[|] [data|e]]; js_cases;
    solve [left; split; [reflexivity | auto] | right; eexists; split; reflexivity].
Qed.

Lemma fetchArticleExtract_settled_log title o w :
  let w' := run (fetchArticleExtract_settled title o) w in
  (console w' = console w
   /\ (error (state w') = error (state w)
       \/ exists t, toString title = Ok t
                    /\ error (state w') = Some (noExtractMessage t)))
  \/ (exists e, console w' = console w ++ [(lit "Article fetch error:", e)]
                /\ error (state w') = Some articleFailedMessage
                /\ selectedArticle (state w') = selectedArticle (state w)).
Proof.
  unfold fetchArticleExtract_settled. cbv zeta.
  destruct o as [e|[|] [data|e]]; js_cases;
    solve [left; split; [reflexivity | eauto] | right; eexists; repeat split].
Qed.

(** X7.  A handler writes to the console exactly on the paths that end
    in its generic message.  When a request settles, either one entry is
    added, labelled by the handler, and the error on screen is that
    handler's generic message; or the console is untouched and the error
    is what it was or a message that names the term or the title. *)
Theorem logged_means_generic_message w k o w' :
  step w (Settle k o) = Some w' ->
  (console w' = console w
   /\ (error (state w') = error (state w)
       \/ (exists term, error (state w') = Some (noResultsMessage term))
       \/ (exists t, error (state w') = Some (noExtractMessage t))))
  \/ (exists e, console w' = console w ++ [(lit "Search error:", e)]
                /\ error (state w') = Some searchFailedMessage)
  \/ (exists e, console w' = console w ++ [(lit "Article fetch error:", e)]
                /\ error (state w') = Some articleFailedMessage).
Proof.
  simpl. destruct (nth_error (inflight w) k) as [t|] eqn:Et; [|discriminate].
  intros H. injection H as <-. unfold settle. rewrite Et.
  destruct t as [term|title]; cbn [resume].
  - match goal with
    | |- context [run (handleSearch_settled term o) ?w0] =>
      destruct (handleSearch_settled_log term o w0) as [[Hc He]|[e [Hc He]]]
    end.
    + left. split; [exact Hc|]. destruct He as [He|He]; [now left | right; left; eauto].
    + right. left. eauto.
  - match goal with
    | |- context [run (fetchArticleExtract_settled title o) ?w0] =>
      destruct (fetchArticleExtract_settled_log title o w0) as [[Hc He]|[e [Hc [He _]]]]
    end.
    + left. split; [exact Hc|].
      destruct He as [He|[t [_ He]]]; [now left | right; right; eauto].
    + right. right. eauto.
Qed.

Lemma logged_means_generic_message_witness :
  let w := run handleSearch (run (setSearchTerm (lit "Qubit")) initialWorld) in
  exists w',
    step w (Settle 0 (Responded false (Throw TypeError))) = Some w'
    /\ console w' = [(lit "Search error:", Error (lit "Network response was not ok"))]
    /\ error (state w') = Some searchFailedMessage.
Proof.
  intros w.
  pose (o := Responded false (Throw TypeError)).
  pose (w' := match step w (Settle 0 o) with Some w' => w' | None => w end).
  assert (Hs : step w (Settle 0 o) = Some w') by (vm_compute; reflexivity).
  exists w'. split; [exact Hs|].
  destruct (logged_means_generic_message w 0 o Hs) as [[Hc _]|[[e [Hc He]]|[e [Hc _]]]].
  - exfalso. vm_compute in Hc. discriminate.
  - split; [vm_compute; reflexivity | exact He].
  - exfalso. vm_compute in Hc. discriminate.
Defined.

(** X8.  A page title with an unpaired surrogate cannot be turned into a
    URL: although the extract is there, [selectArticle] ends in the
    generic failure message with no article, and the [URIError] on the
    console. *)
Theorem unencodable_title_is_a_failure (requested : jsstring) data page extract pageTitle w :
  pageOf data = Ok page ->
  extractOf page = Ok extract ->
  truthy extract = true ->
  getProp page (lit "title") = Ok (VStr pageTitle) ->
  encodeURIComponent pageTitle = None ->
  let w' := selectArticle (VStr requested) (Responded true (Ok data)) w in
  error (state w') = Some articleFailedMessage
  /\ selectedArticle (state w') = None
  /\ loading (state w') = false
  /\ console w' = console w ++ [(lit "Article fetch error:", URIError)].
Proof.
  intros Hp He Ht Hpt Henc w'. subst w'. unfold pageOf in Hp.
  destruct (extractOf_truthy _ He Ht) as [Htp Hx].
  destruct (getProp data (lit "query")) as [query|] eqn:E1; [|discriminate].
  destruct (getPropOpt query (lit "pages")) as [pages|] eqn:E2; [|discriminate].
  rewrite selectArticle_text.
  unfold fetchArticleExtract_settled. js_unfold.
  rewrite E1, E2, Hp, Htp. js_unfold. rewrite Hx, Ht, Hpt. js_unfold.
  unfold encodeURIComponentOf. cbn [toString]. rewrite Henc.
  repeat split.
Qed.

Lemma unencodable_title_is_a_failure_witness :
  let page := VObj [(lit "title", VStr [0xD83D%N]); (lit "extract", str "A face.")] in
  let data := VObj [(lit "query", VObj [(lit "pages", VArr [page])])] in
  error (state (selectArticle (str "Face") (Responded true (Ok data)) initialWorld))
  = Some articleFailedMessage.
Proof.
  intros page data.
  destruct (@unencodable_title_is_a_failure (lit "Face") data page (str "A face.")
              [0xD83D%N] initialWorld eq_refl eq_refl eq_refl eq_refl eq_refl) as [He _].
  exact He.
Defined.

(* ================================================================= *)
(** ** The rendered tree *)

(** X9.  Whenever [App] returns a tree, the tree is not blank: it holds
    the loading box, the error box, the article, the result list or the
    start placeholder.  The start placeholder comes only when none of the
    others does, and a selected article hides the result list. *)
Theorem view_is_never_blank s v :
  App s = Ok v ->
  (loadingBox v = true \/ errorBox v <> None \/ articleCard v <> None
   \/ resultsCard v <> None \/ startPlaceholder v = true)
  /\ (startPlaceholder v = true ->
      loadingBox v = false /\ errorBox v = None /\ articleCard v = None
      /\ resultsCard v = None)
  /\ (articleCard v <> None -> resultsCard v = None).
Proof.
  unfold App.
  destruct (results s) as [| | | | |l| |]; try discriminate.
  destruct (resultElements l) as [buttons|]; [|discriminate].
  intros H. injection H as <-. cbn.
  destruct (loading s); cbn.
  - repeat split; auto; try discriminate.
    destruct (selectedArticle s); [reflexivity | intros H; now elim H].
  - destruct (error s) as [[|c m]|]; cbn;
      destruct (selectedArticle s) as [a|]; cbn;
        destruct l as [|r l]; cbn;
          repeat split; auto; try discriminate;
            try (intros H; now elim H);
            try (right; left; discriminate);
            try (right; right; left; discriminate);
            try (right; right; right; left; discriminate).
Qed.

Lemma view_is_never_blank_witness :
  exists v, App initialState = Ok v
            /\ startPlaceholder v = true /\ resultsCard v = None /\ errorBox v = None.
Proof.
  pose (v := match App initialState with Ok v => v | Throw _ =>
               {| suggestionOverlay := false; inputPlaceholder := []; inputDisabled := false;
                  submitDisabled := false; submitLabel := []; loadingBox := false;
                  errorBox := None; articleCard := None; resultsCard := None;
                  startPlaceholder := false |} end).
  assert (H : App initialState = Ok v) by reflexivity.
  exists v. split; [exact H|].
  destruct (view_is_never_blank initialState H) as [_ [Hp _]].
  assert (Hs : startPlaceholder v = true) by reflexivity.
  destruct (Hp Hs) as [_ [He [_ Hr]]]. auto.
Defined.

Lemma blank_guard_bool s :
  negb (truthy (VStr (trim s))) = true <-> trim s = [].
Proof.
  destruct (trim s); simpl; split; congruence.
Qed.

(** X10.  The submit button and the handler agree.  When the tree shows
    the button enabled, submitting sends exactly one search request for
    the term and the next tree has the button and the input disabled,
    the loading box on, and no result list.  When the button is disabled
    although nothing is loading, submitting would change nothing. *)
Theorem enabled_submit_sends_one_request w v :
  App (state w) = Ok v ->
  if submitDisabled v
  then loading (state w) = true \/ run handleSearch w = w
  else network (run handleSearch w) = network w ++ [searchRequest (searchTerm (state w))]
       /\ exists v', App (state (run handleSearch w)) = Ok v'
                     /\ submitDisabled v' = true /\ inputDisabled v' = true
                     /\ loadingBox v' = true /\ resultsCard v' = None
                     /\ errorBox v' = None /\ articleCard v' = None.
Proof.
  unfold App.
  destruct (results (state w)) as [| | | | |l| |]; try discriminate.
  destruct (resultElements l) as [buttons|]; [|discriminate].
  intros H. injection H as <-. cbn [submitDisabled].
  destruct (loading (state w)); rewrite ?orb_true_l, ?orb_false_l; [now left|].
  destruct (handleSearch_run_cases w) as [[Hb H]|[Hb H]].
  - rewrite Hb. cbn [negb]. now right.
  - destruct (trim (searchTerm (state w))) as [|c rest]; [contradiction|]. cbn [negb].
    rewrite H. cbn [network state]. split; [reflexivity|].
    eexists. split; [reflexivity|]. cbn. repeat split.
Qed.

Lemma enabled_submit_sends_one_request_witness :
  let w := run (setSearchTerm (lit "Qubit")) initialWorld in
  network (run handleSearch w) = [searchRequest (lit "Qubit")].
Proof.
  intros w.
  pose (v := match App (state w) with Ok v => v | Throw _ =>
               {| suggestionOverlay := false; inputPlaceholder := []; inputDisabled := false;
                  submitDisabled := true; submitLabel := []; loadingBox := false;
                  errorBox := None; articleCard := None; resultsCard := None;
                  startPlaceholder := false |} end).
  assert (H : App (state w) = Ok v) by reflexivity.
  pose proof (enabled_submit_sends_one_request w H) as Hv.
  change (submitDisabled v) with false in Hv. cbv iota in Hv.
  destruct Hv as [Hn _]. exact Hn.
Defined.

(** The title a button shows is the one its [onClick] passes on. *)
Lemma resultElements_buttons l : forall buttons,
  resultElements l = Ok buttons ->
  resultButtons l = Ok (map buttonTitle buttons).
Proof.
  induction l as [|r l IH]; intros buttons H; simpl in H |- *.
  - now injection H as <-.
  - destruct (getProp r (lit "pageid")) as [pageid|]; [|discriminate].
    destruct (getProp r (lit "title")) as [t|]; [|discriminate].
    destruct (getProp r (lit "snippet")) as [snippet|]; [|discriminate].
    destruct (match pageid with
              | VUndefined => Ok None
              | _ => match toString pageid with Ok k => Ok (Some k) | Throw e => Throw e end
              end) as [k|]; [|discriminate].
    destruct (resultElements l) as [bs|]; [|discriminate].
    injection H as <-. now rewrite (IH bs eq_refl).
Qed.

Lemma resultElements_length l : forall buttons,
  resultElements l = Ok buttons -> List.length buttons = List.length l.
Proof.
  intros buttons H. apply resultElements_buttons in H.
  assert (Hl : forall l ts, resultButtons l = Ok ts -> List.length ts = List.length l).
  { clear. induction l as [|r l IH]; intros ts H; simpl in H.
    - now injection H as <-.
    - destruct (getProp r (lit "pageid")); [|discriminate].
      destruct (getProp r (lit "title")); [|discriminate].
      destruct (getProp r (lit "snippet")); [|discriminate].
      destruct (resultButtons l) as [ts0|]; [|discriminate].
      injection H as <-. simpl. now rewrite (IH ts0 eq_refl). }
  rewrite <- (Hl _ _ H). now rewrite length_map.
Qed.

(** The state a search that found matches leaves. *)
Lemma search_populates_results_state w data matches :
  trim (searchTerm (state w)) <> [] ->
  remoteError data = false ->
  matchesOf data = Some matches ->
  matches <> [] ->
  state (submitSearch (Responded true (Ok data)) w) =
  {| searchTerm := searchTerm (state w); results := VArr matches;
     loading := false; error := None; selectedArticle := None;
     hasSearched := true |}.
Proof.
  intros Hterm Herr Hm Hne.
  rewrite (submitSearch_nonblank _ _ Hterm).
  rewrite (handleSearch_settled_loaded _ _ _ Herr Hm).
  cbn [state error]. destruct matches as [|m ms]; [contradiction | reflexivity].
Qed.

(** X11.  After a search that found matches, the tree lists them: the
    result list shows the number of matches and one button for each, in
    the order of the response, with no error box, no loading box and no
    start placeholder; the input placeholder invites to search again.
    Clicking the [i]-th button starts [fetchArticleExtract] with the
    title that button shows. *)
Theorem found_matches_are_listed w data matches buttons :
  trim (searchTerm (state w)) <> [] ->
  remoteError data = false ->
  matchesOf data = Some matches ->
  matches <> [] ->
  resultElements matches = Ok buttons ->
  let w' := submitSearch (Responded true (Ok data)) w in
  (exists v, App (state w') = Ok v
             /\ resultsCard v = Some (List.length matches, buttons)
             /\ List.length buttons = List.length matches
             /\ errorBox v = None /\ loadingBox v = false /\ articleCard v = None
             /\ startPlaceholder v = false /\ suggestionOverlay v = false
             /\ inputPlaceholder v = lit "Search for articles again...")
  /\ (forall i b, nth_error buttons i = Some b ->
                  step w' (ClickResult i) = Some (run (fetchArticleExtract (buttonTitle b)) w')).
Proof.
  intros Hterm Herr Hm Hne Hb w'.
  pose proof (search_populates_results_state w data Hterm Herr Hm Hne) as Hs.
  fold w' in Hs. split.
  - unfold App. rewrite Hs. cbn [results]. rewrite Hb.
    eexists. split; [reflexivity|]. cbn.
    destruct matches as [|m ms]; [contradiction|]. cbn.
    rewrite (resultElements_length _ Hb). rewrite andb_false_r.
    repeat split.
  - intros i b Hi. simpl. unfold MemoizedSearchResults. rewrite Hs.
    cbn [selectedArticle results].
    rewrite (resultElements_buttons _ Hb).
    now rewrite (map_nth_error buttonTitle _ _ Hi).
Qed.

Lemma found_matches_are_listed_witness :
  let w := run (setSearchTerm (lit "Qubit")) initialWorld in
  let matches := [searchResult 25284 "Qubit" "a"; searchResult 25220 "Quantum computing" "b"] in
  exists v, App (state (submitSearch (Responded true (Ok (searchResponse matches))) w)) = Ok v
            /\ option_map fst (resultsCard v) = Some 2.
Proof.
  intros w matches.
  pose (buttons := [ {| buttonKey := Some (lit "25284"); buttonTitle := str "Qubit";
                        buttonSnippet := str "a" |};
                     {| buttonKey := Some (lit "25220"); buttonTitle := str "Quantum computing";
                        buttonSnippet := str "b" |} ]).
  assert (H1 : trim (searchTerm (state w)) <> []) by (vm_compute; discriminate).
  assert (H2 : remoteError (searchResponse matches) = false) by reflexivity.
  assert (H3 : matchesOf (searchResponse matches) = Some matches) by reflexivity.
  assert (H4 : matches <> []) by discriminate.
  assert (H5 : resultElements matches = Ok buttons) by (vm_compute; reflexivity).
  destruct (found_matches_are_listed w (searchResponse matches) H1 H2 H3 H4 H5)
    as [[v [Hv [Hc _]]] _].
  exists v. split; [exact Hv|]. rewrite Hc. reflexivity.
Defined.

Lemma resultElements_null l : In VNull l -> exists e, resultElements l = Throw e.
Proof.
  induction l as [|r l IH]; intros Hin; [contradiction|].
  destruct Hin as [->|Hin]; [now exists TypeError|].
  destruct (IH Hin) as [e He]. simpl. rewrite He.
  destruct (getProp r (lit "pageid")) as [pageid|e1]; [|eauto].
  destruct (getProp r (lit "title")) as [t|e2]; [|eauto].
  destruct (getProp r (lit "snippet")) as [snippet|e3]; [|eauto].
  destruct (match pageid with
            | VUndefined => Ok None
            | _ => match toString pageid with Ok k => Ok (Some k) | Throw e => Throw e end
            end) as [k|e4]; eauto.
Qed.

(** X12.  Nothing checks the entries of a response.  When a search
    response lists [null] among its matches, the results are stored all
    the same and the component can no longer render: [App] throws. *)
Theorem null_match_breaks_the_render w data matches :
  trim (searchTerm (state w)) <> [] ->
  remoteError data = false ->
  matchesOf data = Some matches ->
  In VNull matches ->
  let w' := submitSearch (Responded true (Ok data)) w in
  results (state w') = VArr matches
  /\ error (state w') = None
  /\ exists e, App (state w') = Throw e.
Proof.
  intros Hterm Herr Hm Hin w'.
  assert (Hne : matches <> []) by (intros ->; contradiction).
  pose proof (search_populates_results_state w data Hterm Herr Hm Hne) as Hs.
  fold w' in Hs. rewrite Hs. cbn [results error]. repeat split.
  destruct (resultElements_null _ Hin) as [e He].
  exists e. unfold App. cbn [results]. now rewrite He.
Qed.

Lemma null_match_breaks_the_render_witness :
  let w := run (setSearchTerm (lit "Qubit")) initialWorld in
  let matches := [searchResult 25284 "Qubit" "a"; VNull] in
  exists e, App (state (submitSearch (Responded true (Ok (searchResponse matches))) w)) = Throw e.
Proof.
  intros w matches.
  assert (H1 : trim (searchTerm (state w)) <> []) by (vm_compute; discriminate).
  exact (proj2 (proj2 (@null_match_breaks_the_render w (searchResponse matches) matches
                         H1 eq_refl eq_refl (or_intror (or_introl eq_refl))))).
Defined.

(* ----------------------------------------------------------------- *)
(** *** The error box *)

Lemma noResultsMessage_not_empty term : noResultsMessage term <> [].
Proof. discriminate. Qed.

Lemma noExtractMessage_not_empty t : noExtractMessage t <> [].
Proof. discriminate. Qed.

(** What an event does to the error. *)
Lemma step_error w ev w' :
  step w ev = Some w' ->
  error (state w') = error (state w)
  \/ error (state w') = None
  \/ exists m, error (state w') = Some m /\ m <> [].
Proof.
  intros Hstep. destruct ev as [text| |i| |k o].
  - simpl in Hstep. injection Hstep as <-. now left.
  - simpl in Hstep. injection Hstep as <-.
    destruct (handleSearch_run_cases w) as [[_ ->]|[_ ->]]; [now left | now right; left].
  - destruct (click_passes_result_title _ _ Hstep) as [l [r [t [_ [_ [_ [_ ->]]]]]]].
    destruct (fetchArticleExtract_start_frame t w) as [-> _]. now right; left.
  - simpl in Hstep. destruct (selectedArticle (state w)); [|discriminate].
    injection Hstep as <-. now left.
  - simpl in Hstep.
    destruct (nth_error (inflight w) k) as [t|] eqn:Et; [|discriminate].
    injection Hstep as <-. unfold settle. rewrite Et.
    destruct t as [term|title]; cbn [resume].
    + match goal with
      | |- context [run (handleSearch_settled term o) ?w0] =>
        destruct (handleSearch_settled_log term o w0) as [[_ [He|He]]|[e [_ He]]]
      end.
      * now left.
      * right; right. exists (noResultsMessage term). split; [exact He | discriminate].
      * right; right. exists searchFailedMessage. split; [exact He | discriminate].
    + match goal with
      | |- context [run (fetchArticleExtract_settled title o) ?w0] =>
        destruct (fetchArticleExtract_settled_log title o w0)
          as [[_ [He|[t [_ He]]]]|[e [_ [He _]]]]
      end.
      * now left.
      * right; right. exists (noExtractMessage t). split; [exact He | discriminate].
      * right; right. exists articleFailedMessage. split; [exact He | discriminate].
Qed.

Lemma exec_error_not_empty evs : forall w w',
  (forall m, error (state w) = Some m -> m <> []) ->
  exec evs w = Some w' ->
  forall m, error (state w') = Some m -> m <> [].
Proof.
  induction evs as [|ev evs IH]; intros w w' Hw He; simpl in He.
  - now injection He as <-.
  - destruct (step w ev) as [w1|] eqn:Es; [|discriminate].
    apply (IH w1 w'); [|exact He].
    intros m Hm.
    destruct (step_error _ _ Es) as [H|[H|[m' [H Hne]]]].
    + apply Hw. congruence.
    + congruence.
    + congruence.
Qed.

(** X13.  Every error a handler sets is shown.  Along every run, when
    [App] returns a tree, its error box holds exactly the error of the
    state: no handler sets an empty message, which the tree would hide. *)
Theorem every_error_is_shown evs w v :
  exec evs initialWorld = Some w ->
  App (state w) = Ok v ->
  errorBox v = error (state w).
Proof.
  intros He Hv.
  assert (Hne : forall m, error (state w) = Some m -> m <> []).
  { apply (@exec_error_not_empty evs initialWorld w); [|exact He].
    intros m Hm. discriminate. }
  unfold App in Hv.
  destruct (results (state w)) as [| | | | |l| |]; try discriminate.
  destruct (resultElements l) as [buttons|]; [|discriminate].
  injection Hv as <-. cbn [errorBox].
  destruct (error (state w)) as [m|]; [|reflexivity].
  destruct m as [|c m]; [|reflexivity].
  now elim (Hne [] eq_refl).
Qed.

Lemma every_error_is_shown_witness :
  let evs := [Typed (lit "zzyzx"); Submit; Settle 0 (Responded true (Ok (searchResponse [])))] in
  exists w v, exec evs initialWorld = Some w /\ App (state w) = Ok v
              /\ errorBox v = Some (noResultsMessage (lit "zzyzx")).
Proof.
  intros evs.
  pose (w := match exec evs initialWorld with Some w => w | None => initialWorld end).
  assert (He : exec evs initialWorld = Some w) by (vm_compute; reflexivity).
  pose (v := match App (state w) with Ok v => v | Throw _ =>
               {| suggestionOverlay := false; inputPlaceholder := []; inputDisabled := false;
                  submitDisabled := true; submitLabel := []; loadingBox := false;
                  errorBox := None; articleCard := None; resultsCard := None;
                  startPlaceholder := false |} end).
  assert (Hv : App (state w) = Ok v) by (vm_compute; reflexivity).
  exists w, v. split; [exact He|]. split; [exact Hv|].
  rewrite (@every_error_is_shown evs w v He Hv). vm_compute. reflexivity.
Defined.

(* ================================================================= *)
(** ** The placeholder suggestions *)

Lemma jsstring_eqb_eq a b : jsstring_eqb a b = true <-> a = b.
Proof.
  unfold jsstring_eqb. destruct (list_eq_dec N.eq_dec a b); split; congruence.
Qed.

Lemma position_bound l x i : position l x = Some i -> (i < List.length l)%nat.
Proof.
  revert i. induction l as [|y l IH]; intros i H; simpl in H; [discriminate|].
  destruct (jsstring_eqb y x).
  - injection H as <-. simpl. lia.
  - destruct (position l x) as [j|]; [|discriminate].
    injection H as <-. simpl. specialize (IH j eq_refl). lia.
Qed.

Lemma position_none l x : position l x = None -> ~ In x l.
Proof.
  induction l as [|y l IH]; intros H Hin; simpl in H; [contradiction|].
  destruct (jsstring_eqb y x) eqn:E; [discriminate|].
  destruct (position l x) as [j|] eqn:Ej; [discriminate|].
  destruct Hin as [->|Hin]; [|now apply IH].
  assert (jsstring_eqb x x = true) by now apply jsstring_eqb_eq.
  congruence.
Qed.

Lemma position_some l x i : position l x = Some i -> In x l.
Proof.
  revert i. induction l as [|y l IH]; intros i H; simpl in H; [discriminate|].
  destruct (jsstring_eqb y x) eqn:E.
  - left. now apply jsstring_eqb_eq.
  - destruct (position l x) as [j|]; [|discriminate]. right. now apply (IH j).
Qed.

(** X14.  Whatever the current suggestion is, the interval replaces it
    by a suggestion of the list.  A text that is not in the list, such
    as the empty text the state starts with, is followed by the first
    suggestion. *)
Theorem next_suggestion_is_listed prev :
  exists s, nextSuggestion prev = Some s
            /\ In s suggestions
            /\ (~ In prev suggestions -> Some s = nth_error suggestions 0).
Proof.
  unfold nextSuggestion, indexOf.
  destruct (position suggestions prev) as [i|] eqn:E.
  - pose proof (position_bound _ _ E) as Hi.
    pose proof (position_some _ _ E) as Hin.
    change (List.length suggestions) with 7%nat in *.
    do 7 (destruct i as [|i];
          [eexists; split; [vm_compute; reflexivity|];
           split; [simpl; tauto | intros Hn; contradiction]|]).
    lia.
  - eexists. split; [vm_compute; reflexivity|].
    split; [simpl; tauto | reflexivity].
Qed.

Lemma next_suggestion_is_listed_witness :
  nextSuggestion [] = Some (lit "The history of React Hooks")
  /\ nextSuggestion (lit "Interesting facts about Jupiter") = Some (lit "The history of React Hooks").
Proof.
  destruct (next_suggestion_is_listed []) as [s [Hs [_ Hfirst]]].
  assert (Hn : ~ In [] suggestions).
  { simpl. intros H. repeat (destruct H as [H|H]; [discriminate|]). exact H. }
  specialize (Hfirst Hn). simpl in Hfirst. injection Hfirst as ->.
  split; [exact Hs | reflexivity].
Defined.

(** X15.  The suggestions rotate: from any suggestion of the list, seven
    rounds of the interval lead back to it, and no fewer do, so every
    suggestion is shown once per turn. *)
Theorem suggestions_rotate s k :
  In s suggestions ->
  cycle 7 s = Some s
  /\ ((0 < k < 7)%nat -> cycle k s <> Some s).
Proof.
  intros Hin. simpl in Hin.
  repeat (destruct Hin as [<-|Hin];
          [split; [vm_compute; reflexivity|];
           intros Hk;
           do 7 (destruct k as [|k]; [try lia; vm_compute; discriminate|]); lia|]).
  contradiction.
Qed.

Lemma suggestions_rotate_witness :
  cycle 7 (lit "The life cycle of a star") = Some (lit "The life cycle of a star")
  /\ cycle 3 (lit "The life cycle of a star") <> Some (lit "The life cycle of a star").
Proof.
  assert (Hin : In (lit "The life cycle of a star") suggestions) by (simpl; tauto).
  destruct (@suggestions_rotate (lit "The life cycle of a star") 3 Hin) as [H7 H3].
  split; [exact H7 | apply H3; lia].
Defined.

(* ================================================================= *)
(** ** The dark mode preference *)

Lemma find_setAssoc k v l :
  find (fun p => jsstring_eqb (fst p) k) (setAssoc k v l) = Some (k, v).
Proof.
  assert (Hk : jsstring_eqb k k = true) by now apply jsstring_eqb_eq.
  induction l as [|[k' v'] l IH]; simpl.
  - now rewrite Hk.
  - destruct (jsstring_eqb k' k) eqn:E; simpl.
    + now rewrite Hk.
    + now rewrite E.
Qed.

Lemma modeText_read b : jsstring_eqb (modeText b) (lit "true") = b.
Proof. now destruct b. Qed.

(** With a storage that can be written and read, the saving effect leaves
    the flag under the key, as text. *)
Lemma saveDarkMode_stores t :
  writeFault (localStorage t) = None ->
  isDarkMode (saveDarkMode t) = isDarkMode t
  /\ writeFault (localStorage (saveDarkMode t)) = None
  /\ readFault (localStorage (saveDarkMode t)) = readFault (localStorage t)
  /\ (readFault (localStorage t) = None ->
      getItem (localStorage (saveDarkMode t)) darkModeKey = Ok (Some (modeText (isDarkMode t))))
  /\ themeConsole (saveDarkMode t) = themeConsole t.
Proof.
  intros Hw. unfold saveDarkMode, setItem. rewrite Hw. cbn.
  repeat split; try assumption.
  intros Hr. unfold getItem. cbn. rewrite Hr, find_setAssoc. reflexivity.
Qed.

(** X16.  Saving and loading agree: the flag the saving effect has
    stored is the flag the loading effect sets, whatever the colour
    scheme of the system, when the storage can be written and read. *)
Theorem saved_mode_is_loaded t matchMedia :
  writeFault (localStorage t) = None ->
  readFault (localStorage t) = None ->
  loadDarkMode (localStorage (saveDarkMode t)) matchMedia = (Some (isDarkMode t), []).
Proof.
  intros Hw Hr.
  destruct (saveDarkMode_stores t Hw) as [_ [_ [_ [Hg _]]]].
  unfold loadDarkMode. rewrite (Hg Hr), modeText_read. reflexivity.
Qed.

Lemma saved_mode_is_loaded_witness :
  let st := {| items := [(lit "other", lit "1"); (darkModeKey, lit "false")];
               readFault := None; writeFault := None |} in
  let t := {| isDarkMode := true; localStorage := st; themeConsole := [] |} in
  loadDarkMode (localStorage (saveDarkMode t)) (Some false) = (Some true, []).
Proof.
  intros st t. exact (@saved_mode_is_loaded t (Some false) eq_refl eq_refl).
Defined.

Lemma saveDarkMode_inStep t :
  writeFault (localStorage t) = None -> readFault (localStorage t) = None ->
  inStep (saveDarkMode t) /\ isDarkMode (saveDarkMode t) = isDarkMode t.
Proof.
  intros Hw Hr.
  destruct (saveDarkMode_stores t Hw) as [Hm [Hw' [Hr' [Hg _]]]].
  split; [|exact Hm]. unfold inStep. rewrite Hm, Hw', Hr', Hr. auto.
Qed.

Lemma mountTheme_inStep st matchMedia :
  writeFault st = None -> readFault st = None -> inStep (mountTheme st matchMedia).
Proof.
  intros Hw Hr. unfold mountTheme.
  destruct (loadDarkMode st matchMedia) as [loaded log].
  match goal with
  | |- context [saveDarkMode ?t0] =>
    destruct (saveDarkMode_inStep t0 Hw Hr) as [[Hw1 [Hr1 Hg1]] Hm1];
      destruct (saveDarkMode_stores t0 Hw) as [_ [_ [_ [_ Hc1]]]]
  end.
  destruct loaded as [[|]|]; try (now split).
  apply saveDarkMode_inStep; assumption.
Qed.

Lemma toggles_inStep n : forall t, inStep t -> inStep (toggles n t).
Proof.
  induction n as [|n IH]; intros t Ht; simpl; [exact Ht|].
  apply IH. destruct Ht as [Hw [Hr _]].
  unfold toggleDarkMode. now apply saveDarkMode_inStep.
Qed.

Lemma mountTheme_loads st matchMedia b :
  writeFault st = None ->
  fst (loadDarkMode st matchMedia) = Some b ->
  isDarkMode (mountTheme st matchMedia) = b.
Proof.
  intros Hw Hl. unfold mountTheme.
  destruct (loadDarkMode st matchMedia) as [loaded log]. simpl in Hl. subst loaded.
  destruct b.
  - match goal with
    | |- isDarkMode (saveDarkMode ?t1) = _ =>
      assert (Hw1 : writeFault (localStorage t1) = None)
    end.
    { cbn [localStorage].
      match goal with
      | |- context [saveDarkMode ?t0] => now destruct (saveDarkMode_stores t0 Hw) as [_ [H _]]
      end. }
    now destruct (saveDarkMode_stores _ Hw1) as [-> _].
  - match goal with
    | |- isDarkMode (saveDarkMode ?t0) = _ => now destruct (saveDarkMode_stores t0 Hw) as [-> _]
    end.
Qed.

(** X17.  A reload restores the mode.  After mounting and any number of
    toggles, with a storage that can be written and read, mounting again
    on the storage left behind gives the same mode, whatever the colour
    scheme of the system then is. *)
Theorem reload_restores_mode st matchMedia n matchMedia' :
  writeFault st = None ->
  readFault st = None ->
  let t := toggles n (mountTheme st matchMedia) in
  isDarkMode (mountTheme (localStorage t) matchMedia') = isDarkMode t.
Proof.
  intros Hw Hr t.
  assert (Ht : inStep t) by (apply toggles_inStep; now apply mountTheme_inStep).
  destruct Ht as [Hw' [Hr' Hg]].
  apply mountTheme_loads; [exact Hw'|].
  unfold loadDarkMode. rewrite Hg, modeText_read. reflexivity.
Qed.

Lemma reload_restores_mode_witness :
  let st := {| items := []; readFault := None; writeFault := None |} in
  let t := toggles 3 (mountTheme st (Some false)) in
  isDarkMode t = true /\ isDarkMode (mountTheme (localStorage t) (Some false)) = true.
Proof.
  intros st t.
  pose proof (@reload_restores_mode st (Some false) 3 (Some false) eq_refl eq_refl) as H.
  split; [reflexivity|]. etransitivity; [exact H | reflexivity].
Defined.

Lemma saveDarkMode_mode t : isDarkMode (saveDarkMode t) = isDarkMode t.
Proof.
  unfold saveDarkMode. now destruct (setItem _ _ _).
Qed.

(** X18.  The mode after mounting.  A stored preference wins, and only
    the exact text [true] means dark; without a stored preference the
    colour scheme of the system decides, when it can be asked; when the
    storage cannot be read the mode is light, and the system is not
    asked. *)
Theorem mount_decides_the_mode st matchMedia :
  isDarkMode (mountTheme st matchMedia) =
  match getItem st darkModeKey with
  | Ok (Some saved) => jsstring_eqb saved (lit "true")
  | Ok None => match matchMedia with Some matches => matches | None => false end
  | Throw _ => false
  end.
Proof.
  unfold mountTheme, loadDarkMode.
  destruct (getItem st darkModeKey) as [[saved|]|e].
  - destruct (jsstring_eqb saved (lit "true")); now rewrite ?saveDarkMode_mode.
  - destruct matchMedia as [[|]|]; now rewrite ?saveDarkMode_mode.
  - now rewrite saveDarkMode_mode.
Qed.

(** X19.  A storage that cannot be written does not stop the toggle: the
    mode flips, the storage is left as it was, and the failure goes to
    the console. *)
Theorem toggle_survives_a_write_failure t e :
  writeFault (localStorage t) = Some e ->
  isDarkMode (toggleDarkMode t) = negb (isDarkMode t)
  /\ localStorage (toggleDarkMode t) = localStorage t
  /\ themeConsole (toggleDarkMode t) =
     themeConsole t ++ [(lit "Could not save dark mode preference to localStorage:", e)].
Proof.
  intros Hw. unfold toggleDarkMode, saveDarkMode, setItem. cbn [localStorage isDarkMode].
  rewrite Hw. repeat split.
Qed.

Lemma toggle_survives_a_write_failure_witness :
  let st := {| items := []; readFault := None; writeFault := Some (HostFailure (lit "QuotaExceededError")) |} in
  let t := mountTheme st (Some true) in
  isDarkMode t = true /\ isDarkMode (toggleDarkMode t) = false /\ items (localStorage (toggleDarkMode t)) = [].
Proof.
  intros st t.
  destruct (@toggle_survives_a_write_failure t (HostFailure (lit "QuotaExceededError")) eq_refl)
    as [Hm [Hs _]].
  split; [reflexivity|]. split; [rewrite Hm; reflexivity | rewrite Hs; reflexivity].
Defined.

(* ================================================================= *)
(** ** What a failure leaves of the result list *)

(** X20.  A search that fails leaves an empty result list: the list of
    the search before is gone.  Fetching an article, however it ends,
    leaves the result list as it was, so that another result can be
    opened. *)
Theorem failures_and_the_result_list o w :
  (forall e, trim (searchTerm (state w)) <> [] -> failureOf o = Some e ->
             results (state (submitSearch o w)) = VArr [])
  /\ (forall title, results (state (selectArticle title o w)) = results (state w)).
Proof.
  split.
  - intros e Hterm Hf.
    rewrite (submitSearch_nonblank _ _ Hterm).
    now rewrite (handleSearch_settled_failed _ _ _ Hf).
  - intros title. now destruct (selectArticle_frame title o w) as [_ [H _]].
Qed.

(* ================================================================= *)
(** ** The article URL *)

Lemma lor_below a b n : (a < 2 ^ n -> b < 2 ^ n -> N.lor a b < 2 ^ n)%N.
Proof.
  intros Ha Hb.
  destruct (N.eq_dec a 0) as [->|Ha0]; [now rewrite N.lor_0_l|].
  destruct (N.eq_dec b 0) as [->|Hb0]; [now rewrite N.lor_0_r|].
  assert (Hl : (N.lor a b <> 0)%N).
  { intros H. apply N.lor_eq_0_iff in H. tauto. }
  apply N.log2_lt_pow2; [lia|].
  rewrite N.log2_lor.
  apply N.log2_lt_pow2 in Ha; [|lia]. apply N.log2_lt_pow2 in Hb; [|lia]. lia.
Qed.

Lemma shiftr_below a k m : (a < 2 ^ (k + m) -> N.shiftr a k < 2 ^ m)%N.
Proof.
  intros H. rewrite N.shiftr_div_pow2.
  apply N.Div0.div_lt_upper_bound. now rewrite <- N.pow_add_r.
Qed.

Lemma land63_below x : (N.land x 0x3F < 2 ^ 6)%N.
Proof.
  change 0x3F%N with (N.ones 6). rewrite N.land_ones.
  apply N.mod_upper_bound. discriminate.
Qed.

Lemma continuation_octet x : (N.lor 0x80 (N.land x 0x3F) < 256)%N.
Proof.
  change 256%N with (2 ^ 8)%N. apply lor_below; [reflexivity|].
  pose proof (land63_below x). change (2 ^ 6)%N with 64%N in *.
  change (2 ^ 8)%N with 256%N. lia.
Qed.

Lemma utf8_octets cp : (cp < 0x110000)%N -> Forall (fun b => (b < 256)%N) (utf8 cp).
Proof.
  intros Hcp. unfold utf8.
  destruct (cp <? 0x80)%N eqn:E1; [apply N.ltb_lt in E1; repeat constructor; lia|].
  destruct (cp <? 0x800)%N eqn:E2.
  - apply N.ltb_lt in E2. repeat constructor; [|apply continuation_octet].
    change 256%N with (2 ^ 8)%N. apply lor_below; [reflexivity|].
    apply N.lt_trans with (2 ^ 5)%N; [|reflexivity].
    apply shiftr_below. exact E2.
  - destruct (cp <? 0x10000)%N eqn:E3.
    + apply N.ltb_lt in E3. repeat constructor; try apply continuation_octet.
      change 256%N with (2 ^ 8)%N. apply lor_below; [reflexivity|].
      apply N.lt_trans with (2 ^ 4)%N; [|reflexivity].
      apply shiftr_below. exact E3.
    + repeat constructor; try apply continuation_octet.
      change 256%N with (2 ^ 8)%N. apply lor_below; [reflexivity|].
      apply N.lt_trans with (2 ^ 3)%N; [|reflexivity].
      apply shiftr_below. change (2 ^ (18 + 3))%N with 0x200000%N. lia.
Qed.

Lemma hexDigit_safe d : (d < 16)%N -> urlSafe (hexDigit d) = true.
Proof.
  intros Hd.
  assert (H : (d = 0 \/ d = 1 \/ d = 2 \/ d = 3 \/ d = 4 \/ d = 5 \/ d = 6 \/ d = 7
               \/ d = 8 \/ d = 9 \/ d = 10 \/ d = 11 \/ d = 12 \/ d = 13 \/ d = 14
               \/ d = 15)%N) by lia.
  repeat (destruct H as [->|H]; [reflexivity|]). now subst d.
Qed.

Lemma percentOctet_safe b :
  (b < 256)%N -> Forall (fun c => urlSafe c = true) (percentOctet b).
Proof.
  intros Hb. unfold percentOctet. repeat constructor.
  - apply hexDigit_safe. change 16%N with (2 ^ 4)%N. now apply shiftr_below.
  - apply hexDigit_safe. change 15%N with (N.ones 4). rewrite N.land_ones.
    apply N.mod_upper_bound. discriminate.
Qed.

Lemma percentEncode_safe cp :
  (cp < 0x110000)%N -> Forall (fun c => urlSafe c = true) (percentEncode cp).
Proof.
  intros Hcp. unfold percentEncode.
  pose proof (utf8_octets Hcp) as Ho.
  induction Ho as [|b bs Hb _ IH]; cbn [flat_map]; [constructor|].
  apply Forall_app. split; [now apply percentOctet_safe | exact IH].
Qed.

Lemma unreserved_safe c : uriUnreserved c = true -> urlSafe c = true.
Proof. intros H. unfold urlSafe. now rewrite H. Qed.

Lemma encodeURIComponent_safe n : forall s enc,
  (List.length s <= n)%nat ->
  codeUnits s ->
  encodeURIComponent s = Some enc ->
  Forall (fun c => urlSafe c = true) enc.
Proof.
  induction n as [|n IH]; intros s enc Hlen Hs H.
  - destruct s; [|simpl in Hlen; lia]. injection H as <-. constructor.
  - destruct s as [|c s]; [injection H as <-; constructor|].
    simpl in Hlen. inversion Hs as [|? ? Hc Hs']; subst.
    simpl in H.
    destruct (uriUnreserved c) eqn:Eu.
    + destruct (encodeURIComponent s) as [e|] eqn:Ee; [|discriminate].
      injection H as <-. constructor; [now apply unreserved_safe|].
      apply (IH s e); [lia | exact Hs' | exact Ee].
    + destruct (isLeadSurrogate c) eqn:El.
      * destruct s as [|d s]; [discriminate|].
        destruct (isTrailSurrogate d) eqn:Et; [|discriminate].
        destruct (encodeURIComponent s) as [e|] eqn:Ee; [|discriminate].
        injection H as <-. simpl in Hlen.
        inversion Hs' as [|? ? Hd Hs'']; subst.
        apply Forall_app. split.
        -- apply percentEncode_safe.
           unfold isLeadSurrogate, isTrailSurrogate in El, Et.
           apply andb_true_iff in El as [El1 El2]. apply andb_true_iff in Et as [Et1 Et2].
           apply N.leb_le in El1, El2, Et1, Et2. lia.
        -- apply (IH s e); [lia | exact Hs'' | exact Ee].
      * destruct (isTrailSurrogate c); [discriminate|].
        destruct (encodeURIComponent s) as [e|] eqn:Ee; [|discriminate].
        injection H as <-. apply Forall_app. split.
        -- apply percentEncode_safe. lia.
        -- apply (IH s e); [lia | exact Hs' | exact Ee].
Qed.

(** X21.  The URL of a selected article is plain: it is the canonical
    prefix followed only by unreserved characters, [%] and upper-case
    hexadecimal digits, whatever characters the page title holds. *)
Theorem article_url_is_plain (requested : jsstring) data page extract pageTitle a w :
  pageOf data = Ok page ->
  extractOf page = Ok extract ->
  truthy extract = true ->
  getProp page (lit "title") = Ok (VStr pageTitle) ->
  codeUnits pageTitle ->
  selectedArticle (state (selectArticle (VStr requested) (Responded true (Ok data)) w)) = Some a ->
  exists enc, url a = lit "https://en.wikipedia.org/wiki/" ++ enc
              /\ Forall (fun c => urlSafe c = true) enc.
Proof.
  intros Hp He Ht Hpt Hunits Ha.
  destruct (encodeURIComponent pageTitle) as [enc|] eqn:Henc.
  - assert (Hurl : encodeURIComponentOf (VStr pageTitle) = Ok enc)
      by (unfold encodeURIComponentOf; cbn [toString]; now rewrite Henc).
    rewrite selectArticle_text in Ha.
    rewrite (fetchArticleExtract_settled_viewing (VStr requested) _ _ Hp He Ht Hpt Hurl) in Ha.
    cbn [state selectedArticle] in Ha. injection Ha as <-.
    exists enc. split; [reflexivity|].
    now apply (@encodeURIComponent_safe (List.length pageTitle) pageTitle enc).
  - exfalso. revert Ha.
    rewrite selectArticle_text.
    unfold pageOf in Hp.
    destruct (extractOf_truthy _ He Ht) as [Htp Hx].
    destruct (getProp data (lit "query")) as [query|] eqn:E1; [|discriminate].
    destruct (getPropOpt query (lit "pages")) as [pages|] eqn:E2; [|discriminate].
    unfold fetchArticleExtract_settled. js_unfold.
    rewrite E1, E2, Hp, Htp. js_unfold. rewrite Hx, Ht, Hpt. js_unfold.
    unfold encodeURIComponentOf. cbn [toString]. rewrite Henc.
    discriminate.
Qed.

Lemma article_url_is_plain_witness :
  let page := VObj [(lit "title", VStr [0x43; 0x61; 0x66; 0xE9; 0x20; 0xD83D; 0xDE00]%N);
                    (lit "extract", str "A place.")] in
  let data := VObj [(lit "query", VObj [(lit "pages", VArr [page])])] in
  exists a enc,
    selectedArticle (state (selectArticle (str "Cafe") (Responded true (Ok data)) initialWorld))
    = Some a
    /\ url a = lit "https://en.wikipedia.org/wiki/" ++ enc
    /\ enc = lit "Caf%C3%A9%20%F0%9F%98%80".
Proof.
  intros page data.
  pose (a := {| title := VStr [0x43; 0x61; 0x66; 0xE9; 0x20; 0xD83D; 0xDE00]%N;
                content := str "A place.";
                url := lit "https://en.wikipedia.org/wiki/Caf%C3%A9%20%F0%9F%98%80" |}).
  assert (Ha : selectedArticle (state (selectArticle (str "Cafe") (Responded true (Ok data))
                                         initialWorld)) = Some a) by (vm_compute; reflexivity).
  assert (Hu : codeUnits [0x43; 0x61; 0x66; 0xE9; 0x20; 0xD83D; 0xDE00]%N)
    by (repeat constructor).
  destruct (@article_url_is_plain (lit "Cafe") data page (str "A place.")
              [0x43; 0x61; 0x66; 0xE9; 0x20; 0xD83D; 0xDE00]%N a initialWorld
              eq_refl eq_refl eq_refl eq_refl Hu Ha) as [enc [Henc _]].
  exists a, enc. split; [exact Ha|]. split; [exact Henc|].
  change (url a) with (lit "https://en.wikipedia.org/wiki/" ++ lit "Caf%C3%A9%20%F0%9F%98%80")
    in Henc.
  apply app_inv_head in Henc. now symmetry.
Defined.

Lemma failures_and_the_result_list_witness :
  let w := submitSearch (Responded true (Ok (searchResponse [searchResult 25284 "Qubit" "a"])))
             (run (setSearchTerm (lit "Qubit")) initialWorld) in
  results (state (submitSearch (Rejected TypeError) w)) = VArr []
  /\ results (state (selectArticle (str "Qubit") (Rejected TypeError) w)) = results (state w).
Proof.
  intros w.
  destruct (failures_and_the_result_list (Rejected TypeError) w) as [Hs Ha].
  split; [|apply Ha].
  apply (Hs TypeError); [vm_compute; discriminate | reflexivity].
Defined.
